(** * Virtual card ledger ([card::card]): shallow embedding and properties

    The Move module [card::card] keeps one [Card] object per virtual card:
    an owner, a SUI balance, a cumulative spending limit, the amount spent
    so far and an activity flag.  Its entry functions take the card by
    mutable reference together with the transaction context.

    The embedding follows the module function by function.  Entry functions
    are computations in a state-and-abort monad; the state at the point of an
    abort is kept, so that "nothing was mutated before the abort" is a
    statement about the code and not about the host's rollback. *)

From Stdlib Require Import ZArith NArith List Bool Lia.
Import ListNotations.
Open Scope Z_scope.

(** ** Machine integers and aborts *)

Definition MAX_U64 : Z := 18446744073709551615.

Definition is_u64 (x : Z) : Prop := 0 <= x <= MAX_U64.

(** Move addresses are 32-byte values; only equality is ever used on them. *)
Definition address : Type := N.

(** An abort names the module whose [assert!] fired and the code; arithmetic
    on [u64] that leaves the range aborts the transaction as well. *)
Inductive ModuleId : Type :=
| mod_card
| mod_balance.

Inductive Failure : Type :=
| AbortCode (m : ModuleId) (code : Z)
| ArithmeticError.

Inductive Outcome (A : Type) : Type :=
| Ok (a : A)
| Fail (f : Failure).

Arguments Ok {A} a.
Arguments Fail {A} f.

(** [a + b] on [u64]. *)
Definition add_u64 (a b : Z) : Outcome Z :=
  if a + b <=? MAX_U64 then Ok (a + b) else Fail ArithmeticError.

(** [a - b] on [u64]. *)
Definition sub_u64 (a b : Z) : Outcome Z :=
  if b <=? a then Ok (a - b) else Fail ArithmeticError.

(** ** The state-and-abort monad *)

Definition M (S A : Type) : Type := S -> Outcome A * S.

Definition ret {S A : Type} (a : A) : M S A := fun s => (Ok a, s).

Definition bind {S A B : Type} (m : M S A) (k : A -> M S B) : M S B :=
  fun s =>
    match m s with
    | (Ok a, s') => k a s'
    | (Fail f, s') => (Fail f, s')
    end.

Definition fail {S A : Type} (f : Failure) : M S A := fun s => (Fail f, s).

Definition gets {S A : Type} (f : S -> A) : M S A := fun s => (Ok (f s), s).

Definition modify {S : Type} (f : S -> S) : M S unit := fun s => (Ok tt, f s).

Definition lift_outcome {S A : Type} (o : Outcome A) : M S A := fun s => (o, s).

Declare Scope move_scope.
Delimit Scope move_scope with move.

Notation "x <- m ;; k" := (bind m (fun x => k))
  (at level 61, m at next level, right associativity) : move_scope.
Notation "m ;; k" := (bind m (fun _ => k))
  (at level 61, right associativity) : move_scope.

Open Scope move_scope.

(** [assert!(cond, code)] inside module [m]. *)
Definition assert_in {S : Type} (m : ModuleId) (cond : bool) (code : Z) : M S unit :=
  if cond then ret tt else fail (AbortCode m code).

(** ** Data model *)

(** Errors *)
Definition ENotOwner : Z := 0.
Definition EInsufficientBalance : Z := 1.
Definition EExceedsSpendingLimit : Z := 2.
Definition EInactiveCard : Z := 3.

(** [sui::balance::ENotEnough] *)
Definition ENotEnough : Z := 2.

Definition UID : Type := address.
Definition Balance : Type := Z.

Record Coin : Type := mkCoin {
  coin_id : UID;
  coin_balance : Balance
}.

(** The Card object that represents a virtual debit card *)
Record Card : Type := mkCard {
  id : UID;
  owner : address;
  balance : Balance;
  spending_limit : Z;
  amount_spent : Z;
  is_active : bool
}.

Definition wf_card (c : Card) : Prop :=
  is_u64 (balance c) /\ is_u64 (spending_limit c) /\ is_u64 (amount_spent c).

(** The four event structs of the module. *)
Inductive Event : Type :=
| CardCreated (card_id owner : address) (spending_limit : Z)
| Deposit (card_id : address) (amount new_balance : Z)
| Spend (card_id : address) (amount new_balance total_spent : Z)
| DirectTransfer (card_id recipient : address) (amount new_balance : Z).

Inductive Object : Type :=
| CardObject (c : Card)
| CoinObject (c : Coin).

Record TxContext : Type := mkCtx {
  sender : address;
  tx_hash : N;
  ids_created : Z
}.

(** What an invocation can touch besides the card it borrows: its
    transaction context, the event stream, the objects handed over to an
    address and the object ids it deleted. *)
Record Runtime : Type := mkRuntime {
  ctx : TxContext;
  events : list Event;
  sent : list (Object * address);
  deleted : list address
}.

(** An entry function that borrows a card runs on the card and the runtime. *)
Record Frame : Type := mkFrame {
  self : Card;
  rt : Runtime
}.

Definition set_balance (b : Balance) (c : Card) : Card :=
  mkCard (id c) (owner c) b (spending_limit c) (amount_spent c) (is_active c).

Definition set_spending_limit (l : Z) (c : Card) : Card :=
  mkCard (id c) (owner c) (balance c) l (amount_spent c) (is_active c).

Definition set_amount_spent (a : Z) (c : Card) : Card :=
  mkCard (id c) (owner c) (balance c) (spending_limit c) a (is_active c).

Definition set_is_active (a : bool) (c : Card) : Card :=
  mkCard (id c) (owner c) (balance c) (spending_limit c) (amount_spent c) a.

(** Reading and writing through the [&mut Card] reference. *)
Definition rd {A : Type} (f : Card -> A) : M Frame A := gets (fun fr => f (self fr)).

Definition wr (f : Card -> Card) : M Frame unit :=
  modify (fun fr => mkFrame (f (self fr)) (rt fr)).

(** Running a runtime computation next to the borrowed card. *)
Definition in_rt {A : Type} (m : M Runtime A) : M Frame A :=
  fun fr => let (o, r) := m (rt fr) in (o, mkFrame (self fr) r).

(** ** The framework functions the module calls *)

Section Framework.

(** [tx_context::derive_id] is a native hash of the transaction digest and
    the per-transaction counter. *)
Variable derive_id : N -> Z -> address.

Definition tx_context_sender : M Runtime address := gets (fun r => sender (ctx r)).

(** [object::new]: a fresh id, bumping the counter of the context.  The
    counter is bounded by the size of one transaction, far below [MAX_U64]. *)
Definition object_new : M Runtime UID :=
  c <- gets ctx ;;
  modify (fun r => mkRuntime (mkCtx (sender c) (tx_hash c) (ids_created c + 1))
                             (events r) (sent r) (deleted r)) ;;
  ret (derive_id (tx_hash c) (ids_created c)).

Definition object_delete (u : UID) : M Runtime unit :=
  modify (fun r => mkRuntime (ctx r) (events r) (sent r) (deleted r ++ [u])).

Definition object_uid_to_address (u : UID) : address := u.

Definition event_emit (e : Event) : M Runtime unit :=
  modify (fun r => mkRuntime (ctx r) (events r ++ [e]) (sent r) (deleted r)).

Definition transfer_transfer (c : Card) (recipient : address) : M Runtime unit :=
  modify (fun r => mkRuntime (ctx r) (events r) (sent r ++ [(CardObject c, recipient)]) (deleted r)).

Definition transfer_public_transfer (c : Coin) (recipient : address) : M Runtime unit :=
  modify (fun r => mkRuntime (ctx r) (events r) (sent r ++ [(CoinObject c, recipient)]) (deleted r)).

Definition balance_zero : Balance := 0.

Definition balance_value (b : Balance) : Z := b.

(** [balance::join(&mut card.balance, b)] *)
Definition balance_join (b : Balance) : M Frame Z :=
  cur <- rd balance ;;
  v <- lift_outcome (add_u64 cur b) ;;
  wr (set_balance v) ;;
  ret v.

(** [balance::split(&mut card.balance, value)] *)
Definition balance_split (value : Z) : M Frame Balance :=
  cur <- rd balance ;;
  assert_in mod_balance (value <=? cur) ENotEnough ;;
  v <- lift_outcome (sub_u64 cur value) ;;
  wr (set_balance v) ;;
  ret value.

Definition coin_value (c : Coin) : Z := balance_value (coin_balance c).

Definition coin_into_balance (c : Coin) : M Runtime Balance :=
  object_delete (coin_id c) ;;
  ret (coin_balance c).

Definition coin_from_balance (b : Balance) : M Runtime Coin :=
  u <- object_new ;;
  ret (mkCoin u b).

(** ** The module [card::card] *)

Definition assert_ {S : Type} (cond : bool) (code : Z) : M S unit :=
  assert_in mod_card cond code.

(** Creates a new virtual card with a specified spending limit *)
Definition create_card (spending_limit : Z) : M Runtime unit :=
  sender <- tx_context_sender ;;
  u <- object_new ;;
  let card := mkCard u sender balance_zero spending_limit 0 true in
  let card_id := object_uid_to_address (id card) in
  event_emit (CardCreated card_id sender spending_limit) ;;
  transfer_transfer card sender.

(** Deposits SUI tokens into the card *)
Definition deposit (payment : Coin) : M Frame unit :=
  sender <- in_rt tx_context_sender ;;
  o <- rd owner ;;
  assert_ (N.eqb sender o) ENotOwner ;;
  a <- rd is_active ;;
  assert_ a EInactiveCard ;;
  let amount := coin_value payment in
  deposit_balance <- in_rt (coin_into_balance payment) ;;
  card_id <- rd (fun c => object_uid_to_address (id c)) ;;
  balance_join deposit_balance ;;
  b <- rd balance ;;
  in_rt (event_emit (Deposit card_id amount (balance_value b))).

(** Simulates spending from the card with a recipient *)
Definition spend (amount : Z) (recipient : address) : M Frame unit :=
  sender <- in_rt tx_context_sender ;;
  o <- rd owner ;;
  assert_ (N.eqb sender o) ENotOwner ;;
  a <- rd is_active ;;
  assert_ a EInactiveCard ;;
  b <- rd balance ;;
  assert_ (amount <=? balance_value b) EInsufficientBalance ;;
  spent <- rd amount_spent ;;
  potential_spent <- lift_outcome (add_u64 spent amount) ;;
  limit <- rd spending_limit ;;
  assert_ (potential_spent <=? limit) EExceedsSpendingLimit ;;
  payment <- balance_split amount ;;
  pay_coin <- in_rt (coin_from_balance payment) ;;
  in_rt (transfer_public_transfer pay_coin recipient) ;;
  wr (set_amount_spent potential_spent) ;;
  card_id <- rd (fun c => object_uid_to_address (id c)) ;;
  b' <- rd balance ;;
  total <- rd amount_spent ;;
  in_rt (event_emit (Spend card_id amount (balance_value b') total)).

(** Original spend function (kept for backward compatibility) *)
Definition spend_to_owner (amount : Z) : M Frame unit :=
  sender <- in_rt tx_context_sender ;;
  spend amount sender.

(** Direct transfer function that bypasses spending limits *)
Definition direct_transfer (amount : Z) (recipient : address) : M Frame unit :=
  sender <- in_rt tx_context_sender ;;
  o <- rd owner ;;
  assert_ (N.eqb sender o) ENotOwner ;;
  a <- rd is_active ;;
  assert_ a EInactiveCard ;;
  b <- rd balance ;;
  assert_ (amount <=? balance_value b) EInsufficientBalance ;;
  payment <- balance_split amount ;;
  pay_coin <- in_rt (coin_from_balance payment) ;;
  in_rt (transfer_public_transfer pay_coin recipient) ;;
  card_id <- rd (fun c => object_uid_to_address (id c)) ;;
  b' <- rd balance ;;
  in_rt (event_emit (DirectTransfer card_id recipient amount (balance_value b'))).

(** Returns information about a card *)
Definition get_card_info (card : Card) : address * Z * Z * Z * bool :=
  (owner card, balance_value (balance card), spending_limit card,
   amount_spent card, is_active card).

(** Deactivates a card *)
Definition deactivate_card : M Frame unit :=
  sender <- in_rt tx_context_sender ;;
  o <- rd owner ;;
  assert_ (N.eqb sender o) ENotOwner ;;
  wr (set_is_active false).

(** Reactivates a card *)
Definition reactivate_card : M Frame unit :=
  sender <- in_rt tx_context_sender ;;
  o <- rd owner ;;
  assert_ (N.eqb sender o) ENotOwner ;;
  wr (set_is_active true).

(** Updates the spending limit of a card *)
Definition update_spending_limit (new_limit : Z) : M Frame unit :=
  sender <- in_rt tx_context_sender ;;
  o <- rd owner ;;
  assert_ (N.eqb sender o) ENotOwner ;;
  wr (set_spending_limit new_limit).

(** Withdraws tokens from a card *)
Definition withdraw (amount : Z) : M Frame unit :=
  sender <- in_rt tx_context_sender ;;
  o <- rd owner ;;
  assert_ (N.eqb sender o) ENotOwner ;;
  b <- rd balance ;;
  assert_ (amount <=? balance_value b) EInsufficientBalance ;;
  withdraw_balance <- balance_split amount ;;
  withdraw_coin <- in_rt (coin_from_balance withdraw_balance) ;;
  in_rt (transfer_public_transfer withdraw_coin sender).

End Framework.

(** ** Transactions

    Every entry function is invoked by a transaction, which brings its own
    context.  An aborted transaction leaves nothing behind; a successful one
    commits the frame it produced. *)

Inductive Call : Type :=
| CallDeposit (payment : Coin)
| CallSpend (amount : Z) (recipient : address)
| CallSpendToOwner (amount : Z)
| CallDirectTransfer (amount : Z) (recipient : address)
| CallWithdraw (amount : Z)
| CallDeactivateCard
| CallReactivateCard
| CallUpdateSpendingLimit (new_limit : Z).

Record Tx : Type := mkTx {
  tx_sender : address;
  tx_digest : N;
  tx_call : Call
}.

Section Transactions.

Variable derive_id : N -> Z -> address.

Definition exec (c : Call) : M Frame unit :=
  match c with
  | CallDeposit payment => deposit payment
  | CallSpend amount recipient => spend derive_id amount recipient
  | CallSpendToOwner amount => spend_to_owner derive_id amount
  | CallDirectTransfer amount recipient => direct_transfer derive_id amount recipient
  | CallWithdraw amount => withdraw derive_id amount
  | CallDeactivateCard => deactivate_card
  | CallReactivateCard => reactivate_card
  | CallUpdateSpendingLimit new_limit => update_spending_limit new_limit
  end.

Definition begin_tx (t : Tx) (fr : Frame) : Frame :=
  mkFrame (self fr)
          (mkRuntime (mkCtx (tx_sender t) (tx_digest t) 0)
                     (events (rt fr)) (sent (rt fr)) (deleted (rt fr))).

Definition run_tx (t : Tx) (fr : Frame) : Outcome Frame :=
  match exec (tx_call t) (begin_tx t fr) with
  | (Ok _, fr') => Ok fr'
  | (Fail f, _) => Fail f
  end.

(** A sequence of transactions all of which succeed. *)
Fixpoint run_txs (ts : list Tx) (fr : Frame) : Outcome Frame :=
  match ts with
  | [] => Ok fr
  | t :: ts' =>
      match run_tx t fr with
      | Ok fr' => run_txs ts' fr'
      | Fail f => Fail f
      end
  end.

(** The frame right after [create_card]: the card it handed to its creator,
    with the event and the transfer of the creating transaction. *)
Definition new_card (limit : Z) (c : TxContext) : option Frame :=
  match create_card derive_id limit (mkRuntime c [] [] []) with
  | (Ok _, r) =>
      match sent r with
      | [(CardObject card, _)] => Some (mkFrame card r)
      | _ => None
      end
  | (Fail _, _) => None
  end.

End Transactions.

(** ** Vocabulary of the specification *)

(** The four failure kinds and the aborts that report them. *)
Inductive FailureKind : Type :=
| NotOwner
| InsufficientBalance
| ExceedsSpendingLimit
| InactiveCard.

Definition abort_of (k : FailureKind) : Failure :=
  match k with
  | NotOwner => AbortCode mod_card ENotOwner
  | InsufficientBalance => AbortCode mod_card EInsufficientBalance
  | ExceedsSpendingLimit => AbortCode mod_card EExceedsSpendingLimit
  | InactiveCard => AbortCode mod_card EInactiveCard
  end.

Definition caller (fr : Frame) : address := sender (ctx (rt fr)).

(** The first violated precondition of [spend] in the order owner, active,
    balance, limit, over the integers. *)
Definition first_violated (who : address) (c : Card) (amount : Z) : option FailureKind :=
  if negb (N.eqb who (owner c)) then Some NotOwner
  else if negb (is_active c) then Some InactiveCard
  else if balance c <? amount then Some InsufficientBalance
  else if spending_limit c <? amount_spent c + amount then Some ExceedsSpendingLimit
  else None.

(** What [spend] reports when it fails: as [first_violated], except that a
    sum past [MAX_U64] is reported by the addition itself. *)
Definition spend_failure (who : address) (c : Card) (amount : Z) : option Failure :=
  match first_violated who c amount with
  | Some ExceedsSpendingLimit =>
      if MAX_U64 <? amount_spent c + amount then Some ArithmeticError
      else Some (abort_of ExceedsSpendingLimit)
  | Some k => Some (abort_of k)
  | None => None
  end.

(** Amounts a call puts into the card and takes out of it. *)
Definition deposited (c : Call) : Z :=
  match c with
  | CallDeposit payment => coin_value payment
  | _ => 0
  end.

Definition moved_out (c : Call) : Z :=
  match c with
  | CallSpend amount _ => amount
  | CallSpendToOwner amount => amount
  | CallDirectTransfer amount _ => amount
  | CallWithdraw amount => amount
  | _ => 0
  end.

Definition total_deposited (ts : list Tx) : Z :=
  fold_right (fun t acc => deposited (tx_call t) + acc) 0 ts.

Definition total_moved_out (ts : list Tx) : Z :=
  fold_right (fun t acc => moved_out (tx_call t) + acc) 0 ts.

(** The coins a call asks to hand out, as amount and receiver. *)
Definition coins_out (c : Call) (who : address) : list (Z * address) :=
  match c with
  | CallSpend amount recipient => [(amount, recipient)]
  | CallSpendToOwner amount => [(amount, who)]
  | CallDirectTransfer amount recipient => [(amount, recipient)]
  | CallWithdraw amount => [(amount, who)]
  | _ => []
  end.

(** The coins among the objects handed over, as amount and receiver. *)
Definition coins_sent (l : list (Object * address)) : list (Z * address) :=
  flat_map (fun oa => match fst oa with
                      | CoinObject c => [(coin_value c, snd oa)]
                      | CardObject _ => []
                      end) l.

(** Arguments of a call that are [u64] values. *)
Definition wf_call (c : Call) : Prop :=
  match c with
  | CallDeposit payment => is_u64 (coin_value payment)
  | CallSpend amount _ => is_u64 amount
  | CallSpendToOwner amount => is_u64 amount
  | CallDirectTransfer amount _ => is_u64 amount
  | CallWithdraw amount => is_u64 amount
  | CallUpdateSpendingLimit new_limit => is_u64 new_limit
  | _ => True
  end.

(** The same frame with the activity flag of its card forced to [a]. *)
Definition with_activity (a : bool) (fr : Frame) : Frame :=
  mkFrame (set_is_active a (self fr)) (rt fr).

(** ** Test data, after the module's own tests *)

Definition OWNER : address := 0xCAFE%N.
Definition STRANGER : address := 0xBEEF%N.

(** A stand-in for the native id derivation, for running the model. *)
Definition demo_derive_id (h : N) (n : Z) : address := (h * 65536 + Z.to_N n)%N.

Definition demo_ctx (who : address) : TxContext := mkCtx who 7%N 0.

Definition demo_card (bal limit spent : Z) (active : bool) : Card :=
  mkCard 1%N OWNER bal limit spent active.

Definition demo_frame (who : address) (c : Card) : Frame :=
  mkFrame c (mkRuntime (demo_ctx who) [] [] []).

Definition demo_coin (v : Z) : Coin := mkCoin 99%N v.

Definition tx_by_owner (n : N) (c : Call) : Tx := mkTx OWNER n c.

(** A run that deposits, withdraws while inactive, spends and transfers. *)
Definition demo_txs : list Tx :=
  [tx_by_owner 8 (CallDeposit (demo_coin 500));
   tx_by_owner 9 CallDeactivateCard;
   tx_by_owner 10 (CallWithdraw 100);
   tx_by_owner 11 CallReactivateCard;
   tx_by_owner 12 (CallSpend 200 STRANGER);
   tx_by_owner 13 (CallUpdateSpendingLimit 50);
   tx_by_owner 14 (CallDirectTransfer 150 STRANGER)].

(** A run that recycles the same funds through the card until the amount
    spent sits at [MAX_U64]; no coin in it exceeds the SUI supply. *)
Definition SUPPLY : Z := 10000000000000000000.

Definition saturating_txs : list Tx :=
  [tx_by_owner 8 (CallDeposit (demo_coin SUPPLY));
   tx_by_owner 9 (CallSpendToOwner SUPPLY);
   tx_by_owner 10 (CallDeposit (demo_coin SUPPLY));
   tx_by_owner 11 (CallSpendToOwner (MAX_U64 - SUPPLY))].

(** ** Vocabulary for runs of the ledger *)

(** The amount a call moves out on the limit-tracked path. *)
Definition spent_by (c : Call) : Z :=
  match c with
  | CallSpend amount _ => amount
  | CallSpendToOwner amount => amount
  | _ => 0
  end.

Definition total_spent (ts : list Tx) : Z :=
  fold_right (fun t acc => spent_by (tx_call t) + acc) 0 ts.

(** Calls whose entry function ends in [event::emit]. *)
Definition notifies (c : Call) : bool :=
  match c with
  | CallDeposit _ | CallSpend _ _ | CallSpendToOwner _ | CallDirectTransfer _ _ => true
  | _ => false
  end.

Definition is_limit_update (c : Call) : bool :=
  match c with
  | CallUpdateSpendingLimit _ => true
  | _ => false
  end.

Definition event_card_id (e : Event) : address :=
  match e with
  | CardCreated card_id _ _ => card_id
  | Deposit card_id _ _ => card_id
  | Spend card_id _ _ _ => card_id
  | DirectTransfer card_id _ _ _ => card_id
  end.

Definition sum_amounts (l : list (Z * address)) : Z :=
  fold_right (fun p acc => fst p + acc) 0 l.

(** The same frame with other limit bookkeeping on its card. *)
Definition with_limits (limit spent : Z) (fr : Frame) : Frame :=
  mkFrame (set_spending_limit limit (set_amount_spent spent (self fr))) (rt fr).

(** The card of the test scenarios right after its creation, and where the
    two runs below leave it. *)
Definition demo_start : Frame :=
  Eval vm_compute in
    match new_card demo_derive_id 1000 (demo_ctx OWNER) with
    | Some fr => fr
    | None => demo_frame OWNER (demo_card 0 1000 0 true)
    end.

Definition demo_end : Frame :=
  Eval vm_compute in
    match run_txs demo_derive_id demo_txs demo_start with
    | Ok fr => fr
    | Fail _ => demo_start
    end.

Definition fixed_limit_txs : list Tx :=
  [tx_by_owner 8 (CallDeposit (demo_coin 5000));
   tx_by_owner 9 (CallSpend 400 STRANGER);
   tx_by_owner 10 (CallDirectTransfer 3000 STRANGER);
   tx_by_owner 11 (CallSpendToOwner 600);
   tx_by_owner 12 (CallWithdraw 1000)].

Definition fixed_limit_end : Frame :=
  Eval vm_compute in
    match run_txs demo_derive_id fixed_limit_txs demo_start with
    | Ok fr => fr
    | Fail _ => demo_start
    end.

(** ** The dapp's helpers on event types and addresses

    The pages that show a card's history receive the events of the module
    and sort them by their type tag, a string of the form
    [<package>::card::<Struct>].  JavaScript strings are modelled as
    [string]s, that is as sequences of code units below 256, which covers
    every type tag and every address. *)

From Stdlib Require Import Ascii String.




(** Does [s] start with [p]? *)
Fixpoint startsWith (s p : string) {struct p} : bool :=
  match p, s with
  | EmptyString, _ => true
  | String a p', String b s' => Ascii.eqb a b && startsWith s' p'
  | String _ _, EmptyString => false
  end.


(** [s.split(sep)] for a non-empty separator: the separators are found from
    left to right and do not overlap; [skip] counts the code units of a
    separator found that are still to be passed over, [cur] is the piece
    read so far. *)
Fixpoint split_go (sep s : string) (skip : nat) (cur : string) : list string :=
  match s with
  | EmptyString => [cur]
  | String c s' =>
      match skip with
      | S k => split_go sep s' k cur
      | O =>
          if startsWith s sep
          then cur :: split_go sep s' (String.length sep - 1) EmptyString
          else split_go sep s' 0 (cur ++ String c EmptyString)
      end
  end.

Definition split (s sep : string) : list string := split_go sep s 0 EmptyString.











(** ** Proof steps shared by the entry functions *)

Ltac unfold_move :=
  unfold exec, deposit, spend_to_owner, spend, direct_transfer, withdraw,
    deactivate_card, reactivate_card, update_spending_limit, create_card,
    balance_join, balance_split, coin_from_balance, coin_into_balance,
    coin_value, balance_value, balance_zero, object_new, object_delete,
    object_uid_to_address, event_emit, transfer_transfer,
    transfer_public_transfer, tx_context_sender, assert_, assert_in,
    add_u64, sub_u64, in_rt, rd, wr, lift_outcome, modify, gets, fail, bind, ret.

Ltac open_frame fr :=
  let c := fresh "c" in
  let r := fresh "r" in
  let x := fresh "x" in
  destruct fr as [c r]; destruct c; destruct r as [x ? ? ?]; destruct x.

Ltac branch :=
  match goal with
  | |- context [if ?b then _ else _] => destruct b eqn:?; cbn [fst snd]
  end.

Ltac by_cases fr :=
  open_frame fr; unfold_move; cbn;
  repeat (branch; cbn; try reflexivity; try congruence).

(** Case analysis on the checks of an entry function once it has been
    rewritten with its equation. *)
Ltac checks_in H :=
  cbv zeta in H;
  repeat match type of H with
         | context [if negb ?b then _ else _] => destruct b eqn:?; cbn [negb] in H
         end.

Ltac checks :=
  cbv zeta;
  repeat match goal with
         | |- context [if negb ?b then _ else _] => destruct b eqn:?; cbn [negb]
         end.

Ltac to_arith :=
  repeat match goal with
         | H : (_ <=? _) = true |- _ => apply Z.leb_le in H
         | H : (_ <=? _) = false |- _ => apply Z.leb_gt in H
         | H : (_ <? _) = true |- _ => apply Z.ltb_lt in H
         | H : (_ <? _) = false |- _ => apply Z.ltb_ge in H
         | H : N.eqb _ _ = true |- _ => apply N.eqb_eq in H
         | H : N.eqb _ _ = false |- _ => apply N.eqb_neq in H
         end.


(** * Properties *)

Section Equations.

Variable derive_id : N -> Z -> address.

(** Each entry function written out as one conditional: the checks in the
    order of the source, then the frame it leaves. *)

Lemma spend_eq (amount : Z) (recipient : address) (fr : Frame) :
  spend derive_id amount recipient fr =
  let c := self fr in
  let r := rt fr in
  if negb (N.eqb (sender (ctx r)) (owner c)) then (Fail (AbortCode mod_card ENotOwner), fr)
  else if negb (is_active c) then (Fail (AbortCode mod_card EInactiveCard), fr)
  else if negb (amount <=? balance c) then (Fail (AbortCode mod_card EInsufficientBalance), fr)
  else if negb (amount_spent c + amount <=? MAX_U64) then (Fail ArithmeticError, fr)
  else if negb (amount_spent c + amount <=? spending_limit c)
       then (Fail (AbortCode mod_card EExceedsSpendingLimit), fr)
  else
    (Ok tt,
     mkFrame
       (mkCard (id c) (owner c) (balance c - amount) (spending_limit c)
               (amount_spent c + amount) (is_active c))
       (mkRuntime
          (mkCtx (sender (ctx r)) (tx_hash (ctx r)) (ids_created (ctx r) + 1))
          (events r ++ [Spend (id c) amount (balance c - amount) (amount_spent c + amount)])
          (sent r ++ [(CoinObject (mkCoin (derive_id (tx_hash (ctx r)) (ids_created (ctx r))) amount),
                       recipient)])
          (deleted r))).
Proof. by_cases fr. Qed.

Lemma spend_to_owner_eq (amount : Z) (fr : Frame) :
  spend_to_owner derive_id amount fr = spend derive_id amount (caller fr) fr.
Proof. destruct fr as [c r]. reflexivity. Qed.

Lemma deposit_eq (payment : Coin) (fr : Frame) :
  deposit payment fr =
  let c := self fr in
  let r := rt fr in
  if negb (N.eqb (sender (ctx r)) (owner c)) then (Fail (AbortCode mod_card ENotOwner), fr)
  else if negb (is_active c) then (Fail (AbortCode mod_card EInactiveCard), fr)
  else if negb (balance c + coin_balance payment <=? MAX_U64)
       then (Fail ArithmeticError,
             mkFrame c (mkRuntime (ctx r) (events r) (sent r) (deleted r ++ [coin_id payment])))
  else
    (Ok tt,
     mkFrame
       (mkCard (id c) (owner c) (balance c + coin_balance payment) (spending_limit c)
               (amount_spent c) (is_active c))
       (mkRuntime
          (ctx r)
          (events r ++ [Deposit (id c) (coin_balance payment) (balance c + coin_balance payment)])
          (sent r)
          (deleted r ++ [coin_id payment]))).
Proof. by_cases fr. Qed.

Lemma direct_transfer_eq (amount : Z) (recipient : address) (fr : Frame) :
  direct_transfer derive_id amount recipient fr =
  let c := self fr in
  let r := rt fr in
  if negb (N.eqb (sender (ctx r)) (owner c)) then (Fail (AbortCode mod_card ENotOwner), fr)
  else if negb (is_active c) then (Fail (AbortCode mod_card EInactiveCard), fr)
  else if negb (amount <=? balance c) then (Fail (AbortCode mod_card EInsufficientBalance), fr)
  else
    (Ok tt,
     mkFrame
       (mkCard (id c) (owner c) (balance c - amount) (spending_limit c)
               (amount_spent c) (is_active c))
       (mkRuntime
          (mkCtx (sender (ctx r)) (tx_hash (ctx r)) (ids_created (ctx r) + 1))
          (events r ++ [DirectTransfer (id c) recipient amount (balance c - amount)])
          (sent r ++ [(CoinObject (mkCoin (derive_id (tx_hash (ctx r)) (ids_created (ctx r))) amount),
                       recipient)])
          (deleted r))).
Proof. by_cases fr. Qed.

Lemma withdraw_eq (amount : Z) (fr : Frame) :
  withdraw derive_id amount fr =
  let c := self fr in
  let r := rt fr in
  if negb (N.eqb (sender (ctx r)) (owner c)) then (Fail (AbortCode mod_card ENotOwner), fr)
  else if negb (amount <=? balance c) then (Fail (AbortCode mod_card EInsufficientBalance), fr)
  else
    (Ok tt,
     mkFrame
       (mkCard (id c) (owner c) (balance c - amount) (spending_limit c)
               (amount_spent c) (is_active c))
       (mkRuntime
          (mkCtx (sender (ctx r)) (tx_hash (ctx r)) (ids_created (ctx r) + 1))
          (events r)
          (sent r ++ [(CoinObject (mkCoin (derive_id (tx_hash (ctx r)) (ids_created (ctx r))) amount),
                       sender (ctx r))])
          (deleted r))).
Proof. by_cases fr. Qed.

Lemma deactivate_card_eq (fr : Frame) :
  deactivate_card fr =
  if negb (N.eqb (caller fr) (owner (self fr))) then (Fail (AbortCode mod_card ENotOwner), fr)
  else (Ok tt, mkFrame (set_is_active false (self fr)) (rt fr)).
Proof. unfold caller. by_cases fr. Qed.

Lemma reactivate_card_eq (fr : Frame) :
  reactivate_card fr =
  if negb (N.eqb (caller fr) (owner (self fr))) then (Fail (AbortCode mod_card ENotOwner), fr)
  else (Ok tt, mkFrame (set_is_active true (self fr)) (rt fr)).
Proof. unfold caller. by_cases fr. Qed.

Lemma update_spending_limit_eq (new_limit : Z) (fr : Frame) :
  update_spending_limit new_limit fr =
  if negb (N.eqb (caller fr) (owner (self fr))) then (Fail (AbortCode mod_card ENotOwner), fr)
  else (Ok tt, mkFrame (set_spending_limit new_limit (self fr)) (rt fr)).
Proof. unfold caller. by_cases fr. Qed.

Lemma create_card_eq (limit : Z) (r : Runtime) :
  create_card derive_id limit r =
  let u := derive_id (tx_hash (ctx r)) (ids_created (ctx r)) in
  let who := sender (ctx r) in
  (Ok tt,
   mkRuntime
     (mkCtx who (tx_hash (ctx r)) (ids_created (ctx r) + 1))
     (events r ++ [CardCreated u who limit])
     (sent r ++ [(CardObject (mkCard u who 0 limit 0 true), who)])
     (deleted r)).
Proof. destruct r as [x ? ? ?]; destruct x. reflexivity. Qed.

End Equations.

(** ** The limit-tracked spend *)

Section Spend.

Variable derive_id : N -> Z -> address.

Lemma spend_failure_spec (who : address) (c : Card) (amount : Z) :
  spend_failure who c amount =
  if negb (N.eqb who (owner c)) then Some (AbortCode mod_card ENotOwner)
  else if negb (is_active c) then Some (AbortCode mod_card EInactiveCard)
  else if negb (amount <=? balance c) then Some (AbortCode mod_card EInsufficientBalance)
  else if negb (amount_spent c + amount <=? spending_limit c)
       then (if negb (amount_spent c + amount <=? MAX_U64) then Some ArithmeticError
             else Some (AbortCode mod_card EExceedsSpendingLimit))
  else None.
Proof.
  unfold spend_failure, first_violated.
  rewrite !Z.ltb_antisym.
  destruct (N.eqb who (owner c)), (is_active c), (amount <=? balance c),
    (amount_spent c + amount <=? spending_limit c),
    (amount_spent c + amount <=? MAX_U64); reflexivity.
Qed.

(** C1 (as amended): [spend] succeeds exactly when the caller is the owner,
    the card is active, the balance covers the amount and
    [amount_spent + amount] stays within the limit; on success
    [amount_spent] grows and [balance] shrinks by [amount]; on failure
    nothing at all has changed and the failure reported is the one of the
    first violated check in the order owner, active, balance, limit, except
    that a sum [amount_spent + amount] above [MAX_U64] is reported as an
    arithmetic abort and not as ExceedsSpendingLimit. *)
Theorem spend_ordered_preconditions (amount : Z) (recipient : address) (fr : Frame) :
  wf_card (self fr) ->
  ((exists fr', spend derive_id amount recipient fr = (Ok tt, fr')) <->
   (caller fr = owner (self fr) /\ is_active (self fr) = true /\
    balance (self fr) >= amount /\
    amount_spent (self fr) + amount <= spending_limit (self fr))) /\
  (forall fr', spend derive_id amount recipient fr = (Ok tt, fr') ->
     amount_spent (self fr') = amount_spent (self fr) + amount /\
     balance (self fr') = balance (self fr) - amount) /\
  (forall f fr', spend derive_id amount recipient fr = (Fail f, fr') ->
     fr' = fr /\ spend_failure (caller fr) (self fr) amount = Some f).
Proof.
  intros (_ & (_ & Hlim) & _).
  rewrite spend_eq, spend_failure_spec. unfold caller.
  split; [split | split].
  - intros [fr' H]. checks_in H; try discriminate. to_arith. repeat split; auto; lia.
  - intros (Ho & Ha & Hb & Hl).
    rewrite Ho, N.eqb_refl, Ha. cbn [negb].
    replace (amount <=? balance (self fr)) with true by (symmetry; apply Z.leb_le; lia).
    replace (amount_spent (self fr) + amount <=? MAX_U64) with true
      by (symmetry; apply Z.leb_le; lia).
    replace (amount_spent (self fr) + amount <=? spending_limit (self fr)) with true
      by (symmetry; apply Z.leb_le; lia).
    cbn. eexists. reflexivity.
  - intros fr' H. checks_in H; try discriminate. inversion H. split; reflexivity.
  - intros f fr' H.
    checks_in H; inversion H; subst; split; try reflexivity.
    all: checks; try reflexivity; to_arith; lia.
Qed.

End Spend.

Lemma spend_ordered_preconditions_witness :
  wf_card (demo_card 500 1000 0 true) /\
  (exists fr', spend demo_derive_id 200 STRANGER (demo_frame OWNER (demo_card 500 1000 0 true))
               = (Ok tt, fr')).
Proof.
  assert (W : wf_card (self (demo_frame OWNER (demo_card 500 1000 0 true)))).
  { unfold wf_card, is_u64, MAX_U64; cbn; lia. }
  split; [exact W|].
  apply (spend_ordered_preconditions demo_derive_id 200 STRANGER _ W).
  repeat split; cbn; lia.
Defined.

(** C1 as stated fails: the card is well formed, the first three checks pass
    and the limit check is the first violated one, yet the failure reported
    is not ExceedsSpendingLimit. *)
Lemma spend_overflow_reported_as_arithmetic :
  let c := demo_card 1 MAX_U64 MAX_U64 true in
  let fr := demo_frame OWNER c in
  wf_card c /\
  first_violated (caller fr) c 1 = Some ExceedsSpendingLimit /\
  spend demo_derive_id 1 STRANGER fr = (Fail ArithmeticError, fr) /\
  fst (spend demo_derive_id 1 STRANGER fr) <> Fail (abort_of ExceedsSpendingLimit).
Proof.
  cbv zeta. split; [|split; [|split]].
  - unfold wf_card, is_u64, MAX_U64; cbn; lia.
  - reflexivity.
  - reflexivity.
  - cbn. discriminate.
Qed.

(** ** Aborts *)

Section Atomicity.

Variable derive_id : N -> Z -> address.

Lemma exec_abort_self (call : Call) (fr : Frame) (f : Failure) (fr' : Frame) :
  exec derive_id call fr = (Fail f, fr') -> self fr' = self fr.
Proof.
  destruct call; cbn [exec]; intros H.
  - rewrite deposit_eq in H. checks_in H; inversion H; reflexivity.
  - rewrite spend_eq in H. checks_in H; inversion H; reflexivity.
  - rewrite spend_to_owner_eq, spend_eq in H. checks_in H; inversion H; reflexivity.
  - rewrite direct_transfer_eq in H. checks_in H; inversion H; reflexivity.
  - rewrite withdraw_eq in H. checks_in H; inversion H; reflexivity.
  - rewrite deactivate_card_eq in H. checks_in H; inversion H; reflexivity.
  - rewrite reactivate_card_eq in H. checks_in H; inversion H; reflexivity.
  - rewrite update_spending_limit_eq in H. checks_in H; inversion H; reflexivity.
Qed.

(** C2: whichever of the eight operations is invoked, if it aborts (with
    NotOwner, InactiveCard, InsufficientBalance, ExceedsSpendingLimit, or
    any other failure) then at the point of the abort the card is the card
    the call started from: owner, balance, spending limit, amount spent and
    activity flag are what they were. *)
Theorem abort_leaves_card_untouched
    (call : Call) (fr : Frame) (f : Failure) (fr' : Frame) :
  exec derive_id call fr = (Fail f, fr') ->
  self fr' = self fr /\
  owner (self fr') = owner (self fr) /\
  balance (self fr') = balance (self fr) /\
  spending_limit (self fr') = spending_limit (self fr) /\
  amount_spent (self fr') = amount_spent (self fr) /\
  is_active (self fr') = is_active (self fr).
Proof.
  intros H. apply exec_abort_self in H. rewrite H. repeat split.
Qed.

End Atomicity.

Lemma abort_leaves_card_untouched_witness :
  let fr := demo_frame OWNER (demo_card 2000 1000 0 true) in
  exec demo_derive_id (CallSpend 1001 STRANGER) fr
    = (Fail (abort_of ExceedsSpendingLimit), fr) /\
  balance (self fr) = 2000.
Proof.
  cbv zeta.
  assert (E : exec demo_derive_id (CallSpend 1001 STRANGER)
                (demo_frame OWNER (demo_card 2000 1000 0 true))
              = (Fail (abort_of ExceedsSpendingLimit),
                 demo_frame OWNER (demo_card 2000 1000 0 true))) by reflexivity.
  split; [exact E|].
  destruct (abort_leaves_card_untouched demo_derive_id _ _ _ _ E) as (_ & _ & Hb & _).
  exact Hb.
Defined.

(** ** Direct transfer and withdraw *)

Section Outgoing.

Variable derive_id : N -> Z -> address.

(** C3: [direct_transfer] succeeds exactly when the caller is the owner, the
    card is active and the balance covers the amount; on success the balance
    drops by exactly [amount]; whatever the outcome, amount and recipient,
    [amount_spent], [owner], [spending_limit] and [is_active] are left as
    they were. *)
Theorem direct_transfer_frame (amount : Z) (recipient : address) (fr : Frame) :
  ((exists fr', direct_transfer derive_id amount recipient fr = (Ok tt, fr')) <->
   (caller fr = owner (self fr) /\ is_active (self fr) = true /\
    balance (self fr) >= amount)) /\
  (forall fr', direct_transfer derive_id amount recipient fr = (Ok tt, fr') ->
     balance (self fr') = balance (self fr) - amount) /\
  (forall o fr', direct_transfer derive_id amount recipient fr = (o, fr') ->
     amount_spent (self fr') = amount_spent (self fr) /\
     owner (self fr') = owner (self fr) /\
     spending_limit (self fr') = spending_limit (self fr) /\
     is_active (self fr') = is_active (self fr)).
Proof.
  rewrite direct_transfer_eq. unfold caller.
  split; [split | split].
  - intros [fr' H]. checks_in H; try discriminate. to_arith. repeat split; auto; lia.
  - intros (Ho & Ha & Hb).
    rewrite Ho, N.eqb_refl, Ha. cbn [negb].
    replace (amount <=? balance (self fr)) with true by (symmetry; apply Z.leb_le; lia).
    cbn. eexists. reflexivity.
  - intros fr' H. checks_in H; try discriminate. inversion H. reflexivity.
  - intros o fr' H. checks_in H; inversion H; subst; cbn; repeat split; congruence.
Qed.

(** C6: [withdraw] succeeds exactly when the caller is the owner and the
    balance covers the amount, whatever the activity flag; on success the
    balance drops by [amount]; [amount_spent] is never touched and no
    event is emitted. *)
Theorem withdraw_contract (amount : Z) (fr : Frame) :
  ((exists fr', withdraw derive_id amount fr = (Ok tt, fr')) <->
   (caller fr = owner (self fr) /\ balance (self fr) >= amount)) /\
  (forall a : bool,
     (exists fr', withdraw derive_id amount (with_activity a fr) = (Ok tt, fr')) <->
     (exists fr', withdraw derive_id amount fr = (Ok tt, fr'))) /\
  (forall fr', withdraw derive_id amount fr = (Ok tt, fr') ->
     balance (self fr') = balance (self fr) - amount) /\
  (forall o fr', withdraw derive_id amount fr = (o, fr') ->
     amount_spent (self fr') = amount_spent (self fr) /\
     events (rt fr') = events (rt fr)).
Proof.
  rewrite withdraw_eq. unfold caller.
  split; [split | split; [| split]].
  - intros [fr' H]. checks_in H; try discriminate. to_arith. split; auto; lia.
  - intros (Ho & Hb).
    rewrite Ho, N.eqb_refl. cbn [negb].
    replace (amount <=? balance (self fr)) with true by (symmetry; apply Z.leb_le; lia).
    cbn. eexists. reflexivity.
  - intros a. rewrite withdraw_eq. cbn [with_activity self rt set_is_active owner balance].
    split; intros [fr' H]; checks_in H; try discriminate; cbn; eexists; reflexivity.
  - intros fr' H. checks_in H; try discriminate. inversion H. reflexivity.
  - intros o fr' H. checks_in H; inversion H; subst; cbn; split; congruence.
Qed.

End Outgoing.

Lemma direct_transfer_frame_witness :
  let fr := demo_frame OWNER (demo_card 500 100 100 true) in
  exists fr', direct_transfer demo_derive_id 200 STRANGER fr = (Ok tt, fr') /\
              balance (self fr') = 300 /\ amount_spent (self fr') = 100.
Proof.
  cbv zeta.
  destruct (direct_transfer_frame demo_derive_id 200 STRANGER
              (demo_frame OWNER (demo_card 500 100 100 true))) as ([_ Hs] & Hb & Hf).
  destruct Hs as [fr' E]; [repeat split; cbn; lia|].
  exists fr'. split; [exact E|]. split.
  - rewrite (Hb _ E). reflexivity.
  - destruct (Hf _ _ E) as (Ha & _). rewrite Ha. reflexivity.
Defined.

Lemma withdraw_contract_witness :
  let fr := demo_frame OWNER (demo_card 500 1000 0 false) in
  exists fr', withdraw demo_derive_id 200 fr = (Ok tt, fr') /\
              balance (self fr') = 300 /\ events (rt fr') = [].
Proof.
  cbv zeta.
  destruct (withdraw_contract demo_derive_id 200
              (demo_frame OWNER (demo_card 500 1000 0 false))) as ([_ Hs] & _ & Hb & Hf).
  destruct Hs as [fr' E]; [split; cbn; lia|].
  exists fr'. split; [exact E|]. split.
  - rewrite (Hb _ E). reflexivity.
  - destruct (Hf _ _ E) as (_ & He). rewrite He. reflexivity.
Defined.

(** ** The activity flag *)

Section Activity.

Variable derive_id : N -> Z -> address.

(** C4 (as amended): for a call by the owner, [withdraw] (given a sufficient
    balance), [update_spending_limit], [deactivate_card] and
    [reactivate_card] succeed whether the card is active or not, whereas
    [deposit], [spend], [spend_to_owner] and [direct_transfer] on an
    inactive card abort with InactiveCard and change nothing. *)
Theorem activity_gating (fr : Frame) :
  caller fr = owner (self fr) ->
  (forall (a : bool) (amount : Z), balance (self fr) >= amount ->
     exists fr', withdraw derive_id amount (with_activity a fr) = (Ok tt, fr')) /\
  (forall (a : bool) (new_limit : Z),
     exists fr', update_spending_limit new_limit (with_activity a fr) = (Ok tt, fr')) /\
  (forall a : bool, exists fr', deactivate_card (with_activity a fr) = (Ok tt, fr')) /\
  (forall a : bool, exists fr', reactivate_card (with_activity a fr) = (Ok tt, fr')) /\
  (is_active (self fr) = false ->
     (forall payment, deposit payment fr = (Fail (abort_of InactiveCard), fr)) /\
     (forall amount recipient,
        spend derive_id amount recipient fr = (Fail (abort_of InactiveCard), fr)) /\
     (forall amount,
        spend_to_owner derive_id amount fr = (Fail (abort_of InactiveCard), fr)) /\
     (forall amount recipient,
        direct_transfer derive_id amount recipient fr = (Fail (abort_of InactiveCard), fr))).
Proof.
  unfold caller. intros Ho.
  split; [| split; [| split; [| split]]].
  - intros a amount Hb. rewrite withdraw_eq.
    cbn [with_activity self rt set_is_active owner balance].
    rewrite Ho, N.eqb_refl.
    replace (amount <=? balance (self fr)) with true by (symmetry; apply Z.leb_le; lia).
    cbn. eexists. reflexivity.
  - intros a new_limit. rewrite update_spending_limit_eq. unfold caller.
    cbn [with_activity self rt set_is_active owner].
    rewrite Ho, N.eqb_refl. cbn. eexists. reflexivity.
  - intros a. rewrite deactivate_card_eq. unfold caller.
    cbn [with_activity self rt set_is_active owner].
    rewrite Ho, N.eqb_refl. cbn. eexists. reflexivity.
  - intros a. rewrite reactivate_card_eq. unfold caller.
    cbn [with_activity self rt set_is_active owner].
    rewrite Ho, N.eqb_refl. cbn. eexists. reflexivity.
  - intros Ha. repeat split; intros.
    + rewrite deposit_eq. cbv zeta. rewrite Ho, N.eqb_refl, Ha. reflexivity.
    + rewrite spend_eq. cbv zeta. rewrite Ho, N.eqb_refl, Ha. reflexivity.
    + rewrite spend_to_owner_eq, spend_eq. cbv zeta. rewrite Ho, N.eqb_refl, Ha. reflexivity.
    + rewrite direct_transfer_eq. cbv zeta. rewrite Ho, N.eqb_refl, Ha. reflexivity.
Qed.

(** C9: for a call by the owner, [deactivate_card] and [reactivate_card]
    succeed, leave [is_active] false respectively true and touch nothing
    else; called on a card already in that state they leave the whole frame
    as it was. *)
Theorem toggles_idempotent (fr : Frame) :
  caller fr = owner (self fr) ->
  (exists fr', deactivate_card fr = (Ok tt, fr') /\
     fr' = with_activity false fr /\ is_active (self fr') = false /\
     (is_active (self fr) = false -> fr' = fr) /\
     deactivate_card fr' = (Ok tt, fr')) /\
  (exists fr', reactivate_card fr = (Ok tt, fr') /\
     fr' = with_activity true fr /\ is_active (self fr') = true /\
     (is_active (self fr) = true -> fr' = fr) /\
     reactivate_card fr' = (Ok tt, fr')).
Proof.
  intros Ho.
  split; eexists; rewrite ?deactivate_card_eq, ?reactivate_card_eq;
    rewrite Ho, N.eqb_refl; cbn [negb];
    (split; [reflexivity |]); (split; [reflexivity |]); (split; [reflexivity |]);
    (split;
     [ intros Ha; destruct fr as [c r]; destruct c; cbn in *; subst; reflexivity
     | rewrite ?deactivate_card_eq, ?reactivate_card_eq; unfold caller in *; cbn;
       rewrite Ho, N.eqb_refl; reflexivity ]).
Qed.

End Activity.

Lemma activity_gating_witness :
  let fr := demo_frame OWNER (demo_card 500 1000 0 false) in
  (exists fr', withdraw demo_derive_id 200 fr = (Ok tt, fr')) /\
  direct_transfer demo_derive_id 200 STRANGER fr = (Fail (abort_of InactiveCard), fr).
Proof.
  cbv zeta.
  destruct (activity_gating demo_derive_id
              (demo_frame OWNER (demo_card 500 1000 0 false)) eq_refl)
    as (Hw & _ & _ & _ & Hi).
  split.
  - apply (Hw false 200). cbn. lia.
  - destruct (Hi eq_refl) as (_ & _ & _ & Hd). apply Hd.
Defined.

(** C4 as stated fails: the caller is the owner and the balance covers the
    amount, but the card is inactive and [direct_transfer] does not succeed. *)
Lemma direct_transfer_inactive_aborts :
  let c := demo_card 500 1000 0 false in
  let fr := demo_frame OWNER c in
  caller fr = owner c /\ balance c >= 200 /\
  direct_transfer demo_derive_id 200 STRANGER fr = (Fail (AbortCode mod_card EInactiveCard), fr) /\
  ~ (exists fr', direct_transfer demo_derive_id 200 STRANGER fr = (Ok tt, fr')).
Proof.
  cbv zeta. repeat split.
  - cbn. lia.
  - intros [fr' H]. discriminate H.
Qed.

Lemma toggles_idempotent_witness :
  let fr := demo_frame OWNER (demo_card 500 1000 0 false) in
  deactivate_card fr = (Ok tt, fr) /\
  reactivate_card fr = (Ok tt, demo_frame OWNER (demo_card 500 1000 0 true)).
Proof.
  cbv zeta.
  destruct (toggles_idempotent (demo_frame OWNER (demo_card 500 1000 0 false)) eq_refl)
    as ((d & Hd & _ & _ & Hsame & _) & (r & Hr & Hrv & _)).
  split.
  - rewrite Hd. rewrite (Hsame eq_refl). reflexivity.
  - rewrite Hr, Hrv. reflexivity.
Defined.

(** ** Creation and events *)

Section Events.

Variable derive_id : N -> Z -> address.

(** C8: [create_card L] by any caller succeeds, hands the caller one new card
    with balance 0, amount spent 0, spending limit [L], active, owned by the
    caller, and emits one CardCreated event carrying the id of that card,
    the owner and [L]. *)
Theorem create_card_initial_state (limit : Z) (r : Runtime) :
  exists (card : Card) (r' : Runtime),
    create_card derive_id limit r = (Ok tt, r') /\
    sent r' = sent r ++ [(CardObject card, sender (ctx r))] /\
    get_card_info card = (sender (ctx r), 0, limit, 0, true) /\
    events r' = events r ++ [CardCreated (id card) (sender (ctx r)) limit] /\
    new_card derive_id limit (ctx r) = Some (mkFrame card
      (mkRuntime (ctx r') [CardCreated (id card) (sender (ctx r)) limit]
                 [(CardObject card, sender (ctx r))] [])).
Proof.
  rewrite create_card_eq. cbv zeta.
  eexists. eexists. split; [reflexivity |].
  cbn [sent events ctx]. split; [reflexivity |].
  split; [reflexivity |]. split; [reflexivity |].
  unfold new_card. rewrite create_card_eq. reflexivity.
Qed.

(** C10: [deposit], [spend] and [direct_transfer] succeed whenever their
    checks pass, and a successful [deposit], [spend] or [direct_transfer]
    appends exactly one event; its [new_balance] is the balance of the card
    after the call, the amount of a Deposit is the value of the coin paid
    in, and the [total_spent] of a Spend is the updated [amount_spent]. *)
Theorem events_match_post_state (fr : Frame) :
  (forall payment,
     caller fr = owner (self fr) -> is_active (self fr) = true ->
     balance (self fr) + coin_value payment <= MAX_U64 ->
     exists fr', deposit payment fr = (Ok tt, fr') /\
       events (rt fr') =
       events (rt fr) ++ [Deposit (id (self fr')) (coin_value payment) (balance (self fr'))]) /\
  (forall amount recipient,
     caller fr = owner (self fr) -> is_active (self fr) = true ->
     amount <= balance (self fr) ->
     amount_spent (self fr) + amount <= spending_limit (self fr) ->
     spending_limit (self fr) <= MAX_U64 ->
     exists fr', spend derive_id amount recipient fr = (Ok tt, fr') /\
       events (rt fr') =
       events (rt fr) ++ [Spend (id (self fr')) amount (balance (self fr'))
                                (amount_spent (self fr'))]) /\
  (forall amount recipient,
     caller fr = owner (self fr) -> is_active (self fr) = true ->
     amount <= balance (self fr) ->
     exists fr', direct_transfer derive_id amount recipient fr = (Ok tt, fr') /\
       events (rt fr') =
       events (rt fr) ++ [DirectTransfer (id (self fr')) recipient amount
                                         (balance (self fr'))]) /\
  (forall fr',
     (forall payment, deposit payment fr = (Ok tt, fr') ->
        events (rt fr') =
        events (rt fr) ++ [Deposit (id (self fr')) (coin_value payment) (balance (self fr'))]) /\
     (forall amount recipient, spend derive_id amount recipient fr = (Ok tt, fr') ->
        events (rt fr') =
        events (rt fr) ++ [Spend (id (self fr')) amount (balance (self fr'))
                                 (amount_spent (self fr'))]) /\
     (forall amount recipient, direct_transfer derive_id amount recipient fr = (Ok tt, fr') ->
        events (rt fr') =
        events (rt fr) ++ [DirectTransfer (id (self fr')) recipient amount
                                          (balance (self fr'))])).
Proof.
  unfold caller, coin_value, balance_value.
  split; [| split; [| split]].
  - intros payment Ho Ha Hb. rewrite deposit_eq. cbv zeta.
    rewrite Ho, N.eqb_refl, Ha. cbn [negb].
    replace (balance (self fr) + coin_balance payment <=? MAX_U64) with true
      by (symmetry; apply Z.leb_le; lia).
    cbn [negb]. eexists. split; reflexivity.
  - intros amount recipient Ho Ha Hb Hl Hm. rewrite spend_eq. cbv zeta.
    rewrite Ho, N.eqb_refl, Ha. cbn [negb].
    replace (amount <=? balance (self fr)) with true by (symmetry; apply Z.leb_le; lia).
    replace (amount_spent (self fr) + amount <=? MAX_U64) with true
      by (symmetry; apply Z.leb_le; lia).
    replace (amount_spent (self fr) + amount <=? spending_limit (self fr)) with true
      by (symmetry; apply Z.leb_le; lia).
    cbn [negb]. eexists. split; reflexivity.
  - intros amount recipient Ho Ha Hb. rewrite direct_transfer_eq. cbv zeta.
    rewrite Ho, N.eqb_refl, Ha. cbn [negb].
    replace (amount <=? balance (self fr)) with true by (symmetry; apply Z.leb_le; lia).
    cbn [negb]. eexists. split; reflexivity.
  - intros fr'. split; [| split].
    + intros payment H. rewrite deposit_eq in H.
      checks_in H; try discriminate. inversion H. reflexivity.
    + intros amount recipient H. rewrite spend_eq in H.
      checks_in H; try discriminate. inversion H. reflexivity.
    + intros amount recipient H. rewrite direct_transfer_eq in H.
      checks_in H; try discriminate. inversion H. reflexivity.
Qed.

End Events.

Lemma events_match_post_state_witness :
  let fr := demo_frame OWNER (demo_card 500 1000 0 true) in
  (exists fd, deposit (demo_coin 250) fr = (Ok tt, fd) /\
              events (rt fd) = [Deposit 1%N 250 750]) /\
  (exists fs, spend demo_derive_id 200 STRANGER fr = (Ok tt, fs) /\
              events (rt fs) = [Spend 1%N 200 300 200]) /\
  (exists ft, direct_transfer demo_derive_id 150 STRANGER fr = (Ok tt, ft) /\
              events (rt ft) = [DirectTransfer 1%N STRANGER 150 350]).
Proof.
  cbv zeta.
  destruct (events_match_post_state demo_derive_id
              (demo_frame OWNER (demo_card 500 1000 0 true)))
    as (Hd & Hs & Ht & Hpost).
  split; [| split].
  - destruct (Hd (demo_coin 250)) as (fd & Ed & Evd);
      [reflexivity | reflexivity | unfold MAX_U64; cbn; lia |].
    exists fd. split; [exact Ed |].
    destruct (Hpost fd) as (Hpd & _). rewrite (Hpd _ Ed).
    assert (Efd : fd = snd (deposit (demo_coin 250)
                              (demo_frame OWNER (demo_card 500 1000 0 true))))
      by (rewrite Ed; reflexivity).
    rewrite Efd. reflexivity.
  - destruct (Hs 200 STRANGER) as (fs & Es & Evs);
      [reflexivity | reflexivity | cbn; lia | cbn; lia | unfold MAX_U64; cbn; lia |].
    exists fs. split; [exact Es |].
    destruct (Hpost fs) as (_ & Hps & _). rewrite (Hps _ _ Es).
    assert (Efs : fs = snd (spend demo_derive_id 200 STRANGER
                              (demo_frame OWNER (demo_card 500 1000 0 true))))
      by (rewrite Es; reflexivity).
    rewrite Efs. reflexivity.
  - destruct (Ht 150 STRANGER) as (ft & Et & Evt);
      [reflexivity | reflexivity | cbn; lia |].
    exists ft. split; [exact Et |].
    destruct (Hpost ft) as (_ & _ & Hpt). rewrite (Hpt _ _ Et).
    assert (Eft : ft = snd (direct_transfer demo_derive_id 150 STRANGER
                              (demo_frame OWNER (demo_card 500 1000 0 true))))
      by (rewrite Et; reflexivity).
    rewrite Eft. reflexivity.
Defined.

(** ** Amounts *)

Section Amounts.

Variable derive_id : N -> Z -> address.

Lemma coins_sent_app (l1 l2 : list (Object * address)) :
  coins_sent (l1 ++ l2) = coins_sent l1 ++ coins_sent l2.
Proof. unfold coins_sent. apply flat_map_app. Qed.

(** A successful call changes the balance by the amount it was asked to
    move, and hands out exactly the coins it was asked to hand out. *)
Lemma exec_exact_amount (call : Call) (fr fr' : Frame) :
  exec derive_id call fr = (Ok tt, fr') ->
  balance (self fr') = balance (self fr) + deposited call - moved_out call /\
  coins_sent (sent (rt fr')) = coins_sent (sent (rt fr)) ++ coins_out call (caller fr).
Proof.
  destruct call; cbn [exec deposited moved_out coins_out]; intros H.
  - rewrite deposit_eq in H. checks_in H; try discriminate. inversion H.
    cbn. unfold coin_value, balance_value. rewrite app_nil_r. split; [lia | reflexivity].
  - rewrite spend_eq in H. checks_in H; try discriminate. inversion H.
    cbn [self rt balance sent]. rewrite coins_sent_app. split; [lia | reflexivity].
  - rewrite spend_to_owner_eq, spend_eq in H. checks_in H; try discriminate. inversion H.
    cbn [self rt balance sent]. rewrite coins_sent_app. split; [lia | reflexivity].
  - rewrite direct_transfer_eq in H. checks_in H; try discriminate. inversion H.
    cbn [self rt balance sent]. rewrite coins_sent_app. split; [lia | reflexivity].
  - rewrite withdraw_eq in H. checks_in H; try discriminate. inversion H.
    cbn [self rt balance sent]. rewrite coins_sent_app. split; [lia | reflexivity].
  - rewrite deactivate_card_eq in H. checks_in H; try discriminate. inversion H.
    cbn. rewrite app_nil_r. split; [lia | reflexivity].
  - rewrite reactivate_card_eq in H. checks_in H; try discriminate. inversion H.
    cbn. rewrite app_nil_r. split; [lia | reflexivity].
  - rewrite update_spending_limit_eq in H. checks_in H; try discriminate. inversion H.
    cbn. rewrite app_nil_r. split; [lia | reflexivity].
Qed.

(** A successful call on [u64] arguments keeps every amount of the card in
    the [u64] range, with the exact integer results. *)
Lemma exec_keeps_u64 (call : Call) (fr fr' : Frame) :
  wf_card (self fr) -> wf_call call ->
  exec derive_id call fr = (Ok tt, fr') -> wf_card (self fr').
Proof.
  unfold wf_card, is_u64.
  destruct call; cbn [exec wf_call]; unfold is_u64, coin_value, balance_value;
    intros W A H.
  - rewrite deposit_eq in H. checks_in H; try discriminate. inversion H.
    cbn. to_arith. lia.
  - rewrite spend_eq in H. checks_in H; try discriminate. inversion H.
    cbn. to_arith. lia.
  - rewrite spend_to_owner_eq, spend_eq in H. checks_in H; try discriminate. inversion H.
    cbn. to_arith. lia.
  - rewrite direct_transfer_eq in H. checks_in H; try discriminate. inversion H.
    cbn. to_arith. lia.
  - rewrite withdraw_eq in H. checks_in H; try discriminate. inversion H.
    cbn. to_arith. lia.
  - rewrite deactivate_card_eq in H. checks_in H; try discriminate. inversion H.
    cbn. lia.
  - rewrite reactivate_card_eq in H. checks_in H; try discriminate. inversion H.
    cbn. lia.
  - rewrite update_spending_limit_eq in H. checks_in H; try discriminate. inversion H.
    cbn. lia.
Qed.

Lemma run_tx_balance (t : Tx) (fr fr' : Frame) :
  run_tx derive_id t fr = Ok fr' ->
  balance (self fr') = balance (self fr) + deposited (tx_call t) - moved_out (tx_call t).
Proof.
  unfold run_tx. intros H.
  destruct (exec derive_id (tx_call t) (begin_tx t fr)) as [[[] | f] fr''] eqn:E;
    [| discriminate].
  inversion H; subst. apply exec_exact_amount in E. apply E.
Qed.

Lemma run_txs_balance (ts : list Tx) :
  forall fr fr', run_txs derive_id ts fr = Ok fr' ->
  balance (self fr') = balance (self fr) + total_deposited ts - total_moved_out ts.
Proof.
  induction ts as [| t ts IH]; cbn [run_txs total_deposited total_moved_out fold_right];
    intros fr fr' H.
  - inversion H. lia.
  - destruct (run_tx derive_id t fr) as [fr1 | f] eqn:E; [| discriminate].
    apply run_tx_balance in E. apply IH in H.
    fold (total_deposited ts). fold (total_moved_out ts). lia.
Qed.

(** C5: take the card made by [create_card] and apply any sequence of
    transactions on it that all succeed (deposits, spends, transfers,
    withdrawals, with deactivations, reactivations and limit updates in
    between): its balance is the sum of the amounts deposited minus the sum
    of the amounts moved out by [spend], [spend_to_owner], [withdraw] and
    [direct_transfer]. *)
Theorem balance_is_deposits_minus_outflows
    (limit : Z) (c0 : TxContext) (fr0 : Frame) (ts : list Tx) (fr : Frame) :
  new_card derive_id limit c0 = Some fr0 ->
  run_txs derive_id ts fr0 = Ok fr ->
  balance (self fr) = total_deposited ts - total_moved_out ts.
Proof.
  intros Hnew Hrun.
  apply run_txs_balance in Hrun. rewrite Hrun.
  unfold new_card in Hnew. rewrite create_card_eq in Hnew.
  cbn in Hnew. inversion Hnew. cbn. lia.
Qed.

(** C7: amounts are [u64] values computed without wrap-around.  When
    [amount_spent + amount] is above [MAX_U64], [spend] aborts and nothing
    has changed; a successful call changes the balance by exactly the
    amount requested and hands out exactly the coins requested; and on
    [u64] inputs every amount of the card stays a [u64] holding the exact
    integer result. *)
Theorem checked_amount_arithmetic :
  (forall amount recipient fr,
     amount_spent (self fr) + amount > MAX_U64 ->
     exists f, spend derive_id amount recipient fr = (Fail f, fr)) /\
  (forall call fr fr',
     exec derive_id call fr = (Ok tt, fr') ->
     balance (self fr') = balance (self fr) + deposited call - moved_out call /\
     coins_sent (sent (rt fr')) = coins_sent (sent (rt fr)) ++ coins_out call (caller fr)) /\
  (forall call fr fr',
     wf_card (self fr) -> wf_call call ->
     exec derive_id call fr = (Ok tt, fr') -> wf_card (self fr')).
Proof.
  split; [| split].
  - intros amount recipient fr Hov. rewrite spend_eq.
    checks; try (eexists; reflexivity). to_arith. lia.
  - apply exec_exact_amount.
  - apply exec_keeps_u64.
Qed.

End Amounts.

Lemma balance_is_deposits_minus_outflows_witness :
  match new_card demo_derive_id 1000 (demo_ctx OWNER) with
  | Some fr0 =>
      match run_txs demo_derive_id demo_txs fr0 with
      | Ok fr => balance (self fr) = 50
      | Fail _ => False
      end
  | None => False
  end.
Proof.
  destruct (new_card demo_derive_id 1000 (demo_ctx OWNER)) as [fr0 |] eqn:E0;
    [| vm_compute in E0; discriminate E0].
  destruct (run_txs demo_derive_id demo_txs fr0) as [fr | f] eqn:E1.
  - rewrite (balance_is_deposits_minus_outflows demo_derive_id _ _ _ _ _ E0 E1).
    reflexivity.
  - vm_compute in E0. inversion E0; subst. vm_compute in E1. discriminate E1.
Defined.

Lemma checked_amount_arithmetic_witness :
  let fr := demo_frame OWNER (demo_card 10 MAX_U64 (MAX_U64 - 3) true) in
  (exists f, spend demo_derive_id 4 STRANGER fr = (Fail f, fr)) /\
  wf_card (self (snd (exec demo_derive_id (CallSpend 3 STRANGER) fr))).
Proof.
  cbv zeta.
  destruct (checked_amount_arithmetic demo_derive_id) as (Hov & _ & Hwf).
  split.
  - apply Hov. unfold MAX_U64. cbn. lia.
  - apply (Hwf (CallSpend 3 STRANGER) (demo_frame OWNER (demo_card 10 MAX_U64 (MAX_U64 - 3) true))).
    + unfold wf_card, is_u64, MAX_U64. cbn. lia.
    + unfold wf_call, is_u64, MAX_U64. lia.
    + reflexivity.
Defined.

(** ** Scenarios *)

Example test_create_card :
  option_map (fun fr => get_card_info (self fr))
             (new_card demo_derive_id 1000 (demo_ctx OWNER))
  = Some (OWNER, 0, 1000, 0, true).
Proof. reflexivity. Qed.

Example test_deposit_and_spend :
  match new_card demo_derive_id 1000 (demo_ctx OWNER) with
  | Some fr0 =>
      match run_txs demo_derive_id
              [tx_by_owner 8 (CallDeposit (demo_coin 500));
               tx_by_owner 9 (CallSpend 200 STRANGER)] fr0 with
      | Ok fr => get_card_info (self fr) = (OWNER, 300, 1000, 200, true)
      | Fail _ => False
      end
  | None => False
  end.
Proof. vm_compute. reflexivity. Qed.

Example test_spend_exceeds_limit :
  fst (spend demo_derive_id 1001 OWNER (demo_frame OWNER (demo_card 2000 1000 0 true)))
  = Fail (AbortCode mod_card 2).
Proof. reflexivity. Qed.

Example test_spend_insufficient_balance :
  fst (spend demo_derive_id 600 OWNER (demo_frame OWNER (demo_card 500 1000 0 true)))
  = Fail (AbortCode mod_card 1).
Proof. reflexivity. Qed.

Example test_spend_inactive :
  fst (spend demo_derive_id 100 OWNER (demo_frame OWNER (demo_card 500 1000 0 false)))
  = Fail (AbortCode mod_card 3).
Proof. reflexivity. Qed.

Example test_spend_by_stranger :
  fst (spend demo_derive_id 100 OWNER (demo_frame STRANGER (demo_card 500 1000 0 false)))
  = Fail (AbortCode mod_card 0).
Proof. reflexivity. Qed.

Example test_update_spending_limit :
  get_card_info (self (snd (update_spending_limit 2000
                              (demo_frame OWNER (demo_card 500 1000 700 true)))))
  = (OWNER, 500, 2000, 700, true).
Proof. reflexivity. Qed.

Example test_withdraw :
  get_card_info (self (snd (withdraw demo_derive_id 200
                              (demo_frame OWNER (demo_card 500 1000 0 false)))))
  = (OWNER, 300, 1000, 0, false).
Proof. reflexivity. Qed.

Example test_deposit_overflow :
  fst (deposit (demo_coin 1) (demo_frame OWNER (demo_card MAX_U64 1000 0 true)))
  = Fail ArithmeticError.
Proof. reflexivity. Qed.

(** The card with [amount_spent = MAX_U64] is one a run of the module
    produces, and one more unit spent from it aborts in the addition. *)
Example test_spend_saturated :
  match new_card demo_derive_id MAX_U64 (demo_ctx OWNER) with
  | Some fr0 =>
      match run_txs demo_derive_id saturating_txs fr0 with
      | Ok fr =>
          get_card_info (self fr) = (OWNER, SUPPLY - (MAX_U64 - SUPPLY), MAX_U64, MAX_U64, true) /\
          run_tx demo_derive_id (tx_by_owner 12 (CallSpend 1 STRANGER)) fr
          = Fail ArithmeticError
      | Fail _ => False
      end
  | None => False
  end.
Proof. vm_compute. split; reflexivity. Qed.

(** * Further properties of the module *)

Section Handlers.

Variable derive_id : N -> Z -> address.

(** Any of the eight entry functions called by somebody who is not the owner
    of the card aborts with [ENotOwner], before anything is read or written:
    the frame is the one the call started from. *)
Theorem non_owner_rejected (call : Call) (fr : Frame) :
  caller fr <> owner (self fr) ->
  exec derive_id call fr = (Fail (AbortCode mod_card ENotOwner), fr).
Proof.
  unfold caller. intros Hne. apply N.eqb_neq in Hne.
  destruct call; cbn [exec];
    rewrite ?spend_to_owner_eq, ?deposit_eq, ?spend_eq, ?direct_transfer_eq,
      ?withdraw_eq, ?deactivate_card_eq, ?reactivate_card_eq,
      ?update_spending_limit_eq;
    unfold caller; cbv zeta; rewrite Hne; reflexivity.
Qed.

(** [update_spending_limit] succeeds exactly for the owner.  It then stores
    the new limit whatever the amount already spent, and leaves the rest of
    the card, the event stream and the transfers alone; for anybody else it
    aborts with [ENotOwner] and the frame is as before. *)
Theorem update_spending_limit_contract (new_limit : Z) (fr : Frame) :
  ((exists fr', update_spending_limit new_limit fr = (Ok tt, fr')) <->
   caller fr = owner (self fr)) /\
  (forall fr', update_spending_limit new_limit fr = (Ok tt, fr') ->
     spending_limit (self fr') = new_limit /\
     id (self fr') = id (self fr) /\
     owner (self fr') = owner (self fr) /\
     balance (self fr') = balance (self fr) /\
     amount_spent (self fr') = amount_spent (self fr) /\
     is_active (self fr') = is_active (self fr) /\
     rt fr' = rt fr) /\
  (forall f fr', update_spending_limit new_limit fr = (Fail f, fr') ->
     f = AbortCode mod_card ENotOwner /\ fr' = fr).
Proof.
  rewrite update_spending_limit_eq.
  split; [split | split].
  - intros [fr' H]. checks_in H; try discriminate. to_arith. assumption.
  - intros Ho. rewrite Ho, N.eqb_refl. cbn. eexists. reflexivity.
  - intros fr' H. checks_in H; try discriminate. inversion H. cbn. repeat split.
  - intros f fr' H. checks_in H; try discriminate. inversion H. split; reflexivity.
Qed.

(** [deposit] succeeds exactly when the caller is the owner, the card is
    active and the balance plus the value of the coin still fits in a
    [u64].  On success the balance has grown by the value of the coin and
    nothing else on the card has changed.  A failure is [ENotOwner], else
    [EInactiveCard], else the arithmetic abort of [balance::join]. *)
Theorem deposit_contract (payment : Coin) (fr : Frame) :
  ((exists fr', deposit payment fr = (Ok tt, fr')) <->
   (caller fr = owner (self fr) /\ is_active (self fr) = true /\
    balance (self fr) + coin_value payment <= MAX_U64)) /\
  (forall fr', deposit payment fr = (Ok tt, fr') ->
     self fr' = set_balance (balance (self fr) + coin_value payment) (self fr) /\
     sent (rt fr') = sent (rt fr)) /\
  (forall f fr', deposit payment fr = (Fail f, fr') ->
     f = (if negb (N.eqb (caller fr) (owner (self fr))) then AbortCode mod_card ENotOwner
          else if negb (is_active (self fr)) then AbortCode mod_card EInactiveCard
          else ArithmeticError)).
Proof.
  rewrite deposit_eq. unfold caller, coin_value, balance_value.
  split; [split | split].
  - intros [fr' H]. checks_in H; try discriminate. to_arith. repeat split; auto.
  - intros (Ho & Ha & Hb).
    rewrite Ho, N.eqb_refl, Ha. cbn [negb].
    replace (balance (self fr) + coin_balance payment <=? MAX_U64) with true
      by (symmetry; apply Z.leb_le; lia).
    cbn. eexists. reflexivity.
  - intros fr' H. checks_in H; try discriminate. inversion H.
    unfold set_balance. cbn. rewrite Heqb0. split; reflexivity.
  - intros f fr' H. checks_in H; inversion H; reflexivity.
Qed.

(** A successful [spend_to_owner] pays the owner of the card: the one coin it
    hands out has the requested value and goes to [card.owner], and the call
    is [spend] with the owner as recipient. *)
Theorem spend_to_owner_pays_owner (amount : Z) (fr fr' : Frame) :
  spend_to_owner derive_id amount fr = (Ok tt, fr') ->
  spend derive_id amount (owner (self fr)) fr = (Ok tt, fr') /\
  exists coin,
    sent (rt fr') = sent (rt fr) ++ [(CoinObject coin, owner (self fr))] /\
    coin_value coin = amount.
Proof.
  rewrite spend_to_owner_eq. intros H.
  assert (Ho : caller fr = owner (self fr)).
  { rewrite spend_eq in H. unfold caller. checks_in H; try discriminate.
    to_arith. assumption. }
  rewrite Ho in H. split; [exact H |].
  rewrite spend_eq in H. checks_in H; try discriminate. inversion H.
  cbn [rt sent]. eexists. split; reflexivity.
Qed.

(** Only [spend] looks at the limit: whatever the spending limit and the
    amount spent are set to, [direct_transfer] and [withdraw] have the same
    outcome and leave the same balance. *)
Theorem limit_ignored_outside_spend
    (limit spent amount : Z) (recipient : address) (fr : Frame) :
  (fst (direct_transfer derive_id amount recipient (with_limits limit spent fr))
   = fst (direct_transfer derive_id amount recipient fr) /\
   balance (self (snd (direct_transfer derive_id amount recipient (with_limits limit spent fr))))
   = balance (self (snd (direct_transfer derive_id amount recipient fr)))) /\
  (fst (withdraw derive_id amount (with_limits limit spent fr))
   = fst (withdraw derive_id amount fr) /\
   balance (self (snd (withdraw derive_id amount (with_limits limit spent fr))))
   = balance (self (snd (withdraw derive_id amount fr)))).
Proof.
  rewrite !direct_transfer_eq, !withdraw_eq.
  cbn [with_limits self rt set_spending_limit set_amount_spent owner balance is_active].
  split; checks; split; reflexivity.
Qed.

(** Once the limit has been lowered below the amount already spent, no
    [spend] of a non-negative amount succeeds, not even of zero; for the
    owner of an active card with enough balance the failure is
    [EExceedsSpendingLimit] or the arithmetic abort.  Raising the limit to
    [amount_spent + amount] first makes the same spend succeed. *)
Theorem lowered_limit_blocks_spend (amount : Z) (recipient : address) (fr : Frame) :
  spending_limit (self fr) < amount_spent (self fr) ->
  0 <= amount ->
  (exists f, spend derive_id amount recipient fr = (Fail f, fr)) /\
  (caller fr = owner (self fr) -> is_active (self fr) = true ->
   amount <= balance (self fr) ->
   (spend derive_id amount recipient fr =
      (Fail (if amount_spent (self fr) + amount <=? MAX_U64
             then AbortCode mod_card EExceedsSpendingLimit
             else ArithmeticError), fr)) /\
   (amount_spent (self fr) + amount <= MAX_U64 ->
    exists fr',
      (update_spending_limit (amount_spent (self fr) + amount) ;;
       spend derive_id amount recipient) fr = (Ok tt, fr') /\
      amount_spent (self fr') = spending_limit (self fr'))).
Proof.
  intros Hlow Hnn. split.
  - rewrite spend_eq. checks; try (eexists; reflexivity). to_arith. lia.
  - unfold caller. intros Ho Ha Hb. split.
    + rewrite spend_eq. cbv zeta. rewrite Ho, N.eqb_refl, Ha. cbn [negb].
      replace (amount <=? balance (self fr)) with true by (symmetry; apply Z.leb_le; lia).
      cbn [negb].
      destruct (amount_spent (self fr) + amount <=? MAX_U64) eqn:E; cbn [negb];
        [| reflexivity].
      replace (amount_spent (self fr) + amount <=? spending_limit (self fr)) with false
        by (symmetry; apply Z.leb_gt; lia).
      reflexivity.
    + intros Hmax. unfold bind at 1.
      rewrite update_spending_limit_eq. unfold caller. rewrite Ho, N.eqb_refl. cbn [negb].
      rewrite spend_eq.
      cbn [self rt set_spending_limit owner is_active balance amount_spent spending_limit].
      rewrite Ho, N.eqb_refl, Ha. cbn [negb].
      replace (amount <=? balance (self fr)) with true by (symmetry; apply Z.leb_le; lia).
      replace (amount_spent (self fr) + amount <=? MAX_U64) with true
        by (symmetry; apply Z.leb_le; lia).
      rewrite Z.leb_refl. cbn [negb].
      eexists. split; [reflexivity | reflexivity].
Qed.

End Handlers.

(** ** Runs of transactions on one card *)

Section Runs.

Variable derive_id : N -> Z -> address.

Lemma run_tx_ok (t : Tx) (fr fr' : Frame) :
  run_tx derive_id t fr = Ok fr' ->
  exec derive_id (tx_call t) (begin_tx t fr) = (Ok tt, fr').
Proof.
  unfold run_tx.
  destruct (exec derive_id (tx_call t) (begin_tx t fr)) as [[[] | f] fr''];
    intros H; inversion H; reflexivity.
Qed.

(** What one successful call does to the bookkeeping of the card and to the
    event stream. *)
Lemma exec_ok_effects (call : Call) (fr fr' : Frame) :
  exec derive_id call fr = (Ok tt, fr') ->
  caller fr = owner (self fr) /\
  owner (self fr') = owner (self fr) /\
  id (self fr') = id (self fr) /\
  amount_spent (self fr') = amount_spent (self fr) + spent_by call /\
  (is_limit_update call = false ->
     spending_limit (self fr') = spending_limit (self fr) /\
     (amount_spent (self fr) <= spending_limit (self fr) ->
      amount_spent (self fr') <= spending_limit (self fr'))) /\
  exists new,
    events (rt fr') = events (rt fr) ++ new /\
    List.length new = (if notifies call then 1%nat else 0%nat) /\
    Forall (fun e => event_card_id e = id (self fr)) new.
Proof.
  unfold caller.
  destruct call; cbn [exec spent_by is_limit_update notifies]; intros H;
    rewrite ?spend_to_owner_eq in H;
    rewrite ?deposit_eq, ?spend_eq, ?direct_transfer_eq, ?withdraw_eq,
      ?deactivate_card_eq, ?reactivate_card_eq, ?update_spending_limit_eq in H;
    unfold caller in H; checks_in H; try discriminate; inversion H; to_arith;
    cbn [self rt events id owner amount_spent spending_limit
         set_is_active set_spending_limit];
    (split; [assumption |]); (split; [reflexivity |]); (split; [reflexivity |]);
    (split; [lia |]);
    (split; [intros E; first [discriminate E | split; [reflexivity | lia]] |]).
  all: try (eexists; split; [reflexivity |]; split; [reflexivity |];
            repeat constructor).
  all: exists []; rewrite app_nil_r; repeat split; constructor.
Qed.

Lemma begin_tx_self (t : Tx) (fr : Frame) : self (begin_tx t fr) = self fr.
Proof. reflexivity. Qed.

(** Along any run of successful transactions the card keeps its owner and
    its id, and every transaction of the run was sent by that owner. *)
Theorem run_keeps_owner (ts : list Tx) :
  forall fr fr', run_txs derive_id ts fr = Ok fr' ->
  owner (self fr') = owner (self fr) /\
  id (self fr') = id (self fr) /\
  Forall (fun t => tx_sender t = owner (self fr)) ts.
Proof.
  induction ts as [| t ts IH]; cbn [run_txs]; intros fr fr' H.
  - inversion H. repeat split. constructor.
  - destruct (run_tx derive_id t fr) as [fr1 | f] eqn:E; [| discriminate].
    apply run_tx_ok, exec_ok_effects in E.
    destruct E as (Hc & Ho & Hi & _).
    destruct (IH _ _ H) as (Ho' & Hi' & Hall).
    rewrite begin_tx_self in *. cbn in Hc.
    split; [congruence |]. split; [congruence |].
    constructor; [assumption |].
    rewrite Ho in Hall. exact Hall.
Qed.

Lemma run_txs_amount_spent (ts : list Tx) :
  forall fr fr', run_txs derive_id ts fr = Ok fr' ->
  amount_spent (self fr') = amount_spent (self fr) + total_spent ts.
Proof.
  induction ts as [| t ts IH]; cbn [run_txs total_spent fold_right]; intros fr fr' H.
  - inversion H. lia.
  - destruct (run_tx derive_id t fr) as [fr1 | f] eqn:E; [| discriminate].
    apply run_tx_ok, exec_ok_effects in E.
    destruct E as (_ & _ & _ & Hs & _).
    apply IH in H. rewrite begin_tx_self in Hs.
    fold (total_spent ts). lia.
Qed.

(** Along any run of successful transactions [amount_spent] grows by exactly
    the amounts of the [spend] and [spend_to_owner] calls in it: transfers,
    withdrawals, deposits and the administrative calls never touch it. *)
Theorem run_amount_spent (ts : list Tx) (fr fr' : Frame) :
  run_txs derive_id ts fr = Ok fr' ->
  amount_spent (self fr') = amount_spent (self fr) + total_spent ts.
Proof. apply run_txs_amount_spent. Qed.

Lemma run_within_limit (ts : list Tx) :
  forall fr fr', run_txs derive_id ts fr = Ok fr' ->
  Forall (fun t => is_limit_update (tx_call t) = false) ts ->
  amount_spent (self fr) <= spending_limit (self fr) ->
  spending_limit (self fr') = spending_limit (self fr) /\
  amount_spent (self fr') <= spending_limit (self fr').
Proof.
  induction ts as [| t ts IH]; cbn [run_txs]; intros fr fr' H Hall Hle.
  - inversion H; subst. split; [reflexivity | assumption].
  - destruct (run_tx derive_id t fr) as [fr1 | f] eqn:E; [| discriminate].
    apply run_tx_ok, exec_ok_effects in E.
    destruct E as (_ & _ & _ & _ & Hl & _).
    inversion Hall as [| ? ? Hu Hall']; subst.
    destruct (Hl Hu) as (Hl1 & Hl2). rewrite begin_tx_self in *.
    destruct (IH _ _ H Hall' (Hl2 Hle)) as (A & B).
    split; [congruence | assumption].
Qed.

(** A card created with a non-negative limit and never given another one
    cannot spend past it: after any run of successful transactions without
    [update_spending_limit], the amounts moved by [spend] and
    [spend_to_owner] add up to [amount_spent], which is at most the limit
    the card was created with. *)
Theorem spends_stay_within_creation_limit
    (limit : Z) (c0 : TxContext) (fr0 : Frame) (ts : list Tx) (fr : Frame) :
  0 <= limit ->
  new_card derive_id limit c0 = Some fr0 ->
  run_txs derive_id ts fr0 = Ok fr ->
  Forall (fun t => is_limit_update (tx_call t) = false) ts ->
  total_spent ts = amount_spent (self fr) /\ total_spent ts <= limit.
Proof.
  intros Hl Hnew Hrun Hall.
  pose proof (run_txs_amount_spent _ _ _ Hrun) as Hs.
  unfold new_card in Hnew. rewrite create_card_eq in Hnew.
  cbn in Hnew. inversion Hnew; subst fr0. clear Hnew.
  destruct (run_within_limit _ _ _ Hrun Hall) as (A & B); [cbn; lia |].
  cbn in Hs, A. split; lia.
Qed.

(** Starting from [create_card] with a [u64] limit, a run of successful
    transactions with [u64] arguments keeps balance, limit and amount spent
    in the [u64] range; in particular the balance never goes negative. *)
Theorem run_keeps_u64
    (limit : Z) (c0 : TxContext) (fr0 : Frame) (ts : list Tx) (fr : Frame) :
  is_u64 limit ->
  new_card derive_id limit c0 = Some fr0 ->
  Forall (fun t => wf_call (tx_call t)) ts ->
  run_txs derive_id ts fr0 = Ok fr ->
  wf_card (self fr).
Proof.
  intros Hl Hnew Hall Hrun.
  assert (W0 : wf_card (self fr0)).
  { unfold new_card in Hnew. rewrite create_card_eq in Hnew.
    cbn in Hnew. inversion Hnew. unfold wf_card, is_u64 in *. cbn.
    unfold MAX_U64 in *. lia. }
  clear Hnew. revert fr0 W0 Hrun.
  induction Hall as [| t ts Ht Hall IH]; cbn [run_txs]; intros fr0 W0 Hrun.
  - inversion Hrun; subst. exact W0.
  - destruct (run_tx derive_id t fr0) as [fr1 | f] eqn:E; [| discriminate].
    apply run_tx_ok in E.
    apply (IH fr1); [| exact Hrun].
    apply (exec_keeps_u64 derive_id (tx_call t) (begin_tx t fr0) fr1); assumption.
Qed.

Lemma sum_amounts_app (l1 l2 : list (Z * address)) :
  sum_amounts (l1 ++ l2) = sum_amounts l1 + sum_amounts l2.
Proof.
  unfold sum_amounts. induction l1 as [| p l1 IH]; cbn; [reflexivity |].
  rewrite IH. lia.
Qed.

Lemma sum_amounts_coins_out (call : Call) (who : address) :
  sum_amounts (coins_out call who) = moved_out call.
Proof. destruct call; cbn; lia. Qed.

Lemma run_coins (ts : list Tx) :
  forall fr fr', run_txs derive_id ts fr = Ok fr' ->
  sum_amounts (coins_sent (sent (rt fr')))
  = sum_amounts (coins_sent (sent (rt fr))) + total_moved_out ts.
Proof.
  induction ts as [| t ts IH]; cbn [run_txs total_moved_out fold_right]; intros fr fr' H.
  - inversion H. lia.
  - destruct (run_tx derive_id t fr) as [fr1 | f] eqn:E; [| discriminate].
    apply run_tx_ok, exec_exact_amount in E. destruct E as (_ & Hc).
    apply IH in H. rewrite H, Hc, sum_amounts_app, sum_amounts_coins_out.
    fold (total_moved_out ts). cbn [begin_tx rt sent]. lia.
Qed.

(** Nothing is minted or lost: for a card made by [create_card], after any
    run of successful transactions the balance left on the card plus the
    values of all the coins the card has handed out equals the total of the
    coins deposited. *)
Theorem funds_are_conserved
    (limit : Z) (c0 : TxContext) (fr0 : Frame) (ts : list Tx) (fr : Frame) :
  new_card derive_id limit c0 = Some fr0 ->
  run_txs derive_id ts fr0 = Ok fr ->
  balance (self fr) + sum_amounts (coins_sent (sent (rt fr))) = total_deposited ts.
Proof.
  intros Hnew Hrun.
  pose proof (run_coins _ _ _ Hrun) as Hc.
  pose proof (run_txs_balance derive_id _ _ _ Hrun) as Hb.
  unfold new_card in Hnew. rewrite create_card_eq in Hnew.
  cbn in Hnew. inversion Hnew; subst fr0. cbn in Hc, Hb. lia.
Qed.

End Runs.

Section Compositions.

Variable derive_id : N -> Z -> address.

(** The event stream only grows.  A run of successful transactions appends
    one event per [deposit], [spend], [spend_to_owner] and [direct_transfer]
    in it and none for the other calls, and every event appended carries the
    id of the card. *)
Theorem run_events (ts : list Tx) :
  forall fr fr', run_txs derive_id ts fr = Ok fr' ->
  exists new,
    events (rt fr') = events (rt fr) ++ new /\
    List.length new = List.length (filter (fun t => notifies (tx_call t)) ts) /\
    Forall (fun e => event_card_id e = id (self fr)) new.
Proof.
  induction ts as [| t ts IH]; cbn [run_txs filter]; intros fr fr' H.
  - inversion H. exists []. rewrite app_nil_r. repeat split. constructor.
  - destruct (run_tx derive_id t fr) as [fr1 | f] eqn:E; [| discriminate].
    apply run_tx_ok, exec_ok_effects in E.
    destruct E as (_ & _ & Hi & _ & _ & (n1 & He1 & Hl1 & Hc1)).
    destruct (IH _ _ H) as (n2 & He2 & Hl2 & Hc2).
    rewrite begin_tx_self in *. cbn [begin_tx rt events] in He1.
    exists (n1 ++ n2). split; [| split].
    + rewrite He2, He1, app_assoc. reflexivity.
    + rewrite length_app, Hl1, Hl2.
      destruct (notifies (tx_call t)); reflexivity.
    + apply Forall_app. split; [assumption |].
      rewrite Hi in Hc2. assumption.
Qed.

(** Deactivating and reactivating compose as overwrites of the flag.  For the
    owner of an active card, [spend] right after [deactivate_card] aborts
    with [EInactiveCard], and after [deactivate_card] followed by
    [reactivate_card] the frame is the original one, so that [spend] does
    exactly what it would have done at the start. *)
Theorem toggle_round_trip (amount : Z) (recipient : address) (fr : Frame) :
  caller fr = owner (self fr) ->
  (deactivate_card ;; reactivate_card) fr = (Ok tt, with_activity true fr) /\
  (reactivate_card ;; deactivate_card) fr = (Ok tt, with_activity false fr) /\
  (deactivate_card ;; spend derive_id amount recipient) fr
    = (Fail (AbortCode mod_card EInactiveCard), with_activity false fr) /\
  (is_active (self fr) = true ->
   (deactivate_card ;; reactivate_card) fr = (Ok tt, fr) /\
   (deactivate_card ;; reactivate_card ;; spend derive_id amount recipient) fr
     = spend derive_id amount recipient fr).
Proof.
  intros Ho.
  assert (D : forall a, deactivate_card (with_activity a fr)
                        = (Ok tt, with_activity false fr)).
  { intros a. rewrite deactivate_card_eq. unfold caller in *. cbn.
    rewrite Ho, N.eqb_refl. reflexivity. }
  assert (R : forall a, reactivate_card (with_activity a fr)
                        = (Ok tt, with_activity true fr)).
  { intros a. rewrite reactivate_card_eq. unfold caller in *. cbn.
    rewrite Ho, N.eqb_refl. reflexivity. }
  assert (D0 : deactivate_card fr = (Ok tt, with_activity false fr)).
  { rewrite deactivate_card_eq, Ho, N.eqb_refl. reflexivity. }
  assert (R0 : reactivate_card fr = (Ok tt, with_activity true fr)).
  { rewrite reactivate_card_eq, Ho, N.eqb_refl. reflexivity. }
  assert (S0 : spend derive_id amount recipient (with_activity false fr)
               = (Fail (AbortCode mod_card EInactiveCard), with_activity false fr)).
  { rewrite spend_eq. unfold caller in *. cbn. rewrite Ho, N.eqb_refl. reflexivity. }
  split; [| split; [| split]].
  - unfold bind. rewrite D0. apply R.
  - unfold bind. rewrite R0. apply D.
  - unfold bind. rewrite D0. apply S0.
  - intros Ha.
    assert (Same : with_activity true fr = fr).
    { destruct fr as [c r]; destruct c; cbn in *; subst; reflexivity. }
    split.
    + unfold bind. rewrite D0, R, Same. reflexivity.
    + unfold bind. rewrite D0, R, Same. reflexivity.
Qed.

(** Depositing a coin and withdrawing its value again brings the card back:
    for the owner of an active card whose balance is not negative and has
    room for the coin, [deposit] followed by [withdraw] of the same amount
    succeeds, the card is exactly the one before, and one new coin of that
    value has been handed to the owner. *)
Theorem deposit_withdraw_round_trip (payment : Coin) (fr : Frame) :
  caller fr = owner (self fr) ->
  is_active (self fr) = true ->
  0 <= balance (self fr) ->
  balance (self fr) + coin_value payment <= MAX_U64 ->
  exists fr' coin,
    (deposit payment ;; withdraw derive_id (coin_value payment)) fr = (Ok tt, fr') /\
    self fr' = self fr /\
    sent (rt fr') = sent (rt fr) ++ [(CoinObject coin, owner (self fr))] /\
    coin_value coin = coin_value payment.
Proof.
  unfold caller, coin_value, balance_value. intros Ho Ha Hb Hm.
  unfold bind. rewrite deposit_eq. cbv zeta.
  rewrite Ho, N.eqb_refl, Ha. cbn [negb].
  replace (balance (self fr) + coin_balance payment <=? MAX_U64) with true
    by (symmetry; apply Z.leb_le; lia).
  cbn [negb]. rewrite withdraw_eq. cbn [self rt ctx owner balance sent].
  rewrite Ho, N.eqb_refl. cbn [negb].
  replace (coin_balance payment <=? balance (self fr) + coin_balance payment) with true
    by (symmetry; apply Z.leb_le; lia).
  cbn [negb]. eexists. eexists. split; [reflexivity |].
  cbn [self rt sent]. split; [| split; reflexivity].
  destruct fr as [c r]; destruct c; cbn in *. subst. f_equal. lia.
Qed.

End Compositions.

(** ** The further properties at work on the test card *)

Lemma non_owner_rejected_witness :
  exec demo_derive_id (CallWithdraw 100) (demo_frame STRANGER (demo_card 500 1000 0 true))
  = (Fail (AbortCode mod_card ENotOwner), demo_frame STRANGER (demo_card 500 1000 0 true)).
Proof.
  apply (non_owner_rejected demo_derive_id (CallWithdraw 100)
           (demo_frame STRANGER (demo_card 500 1000 0 true))).
  cbn. discriminate.
Defined.

Lemma update_spending_limit_contract_witness :
  let fr := demo_frame OWNER (demo_card 500 1000 700 true) in
  exists fr', update_spending_limit 100 fr = (Ok tt, fr') /\
              spending_limit (self fr') = 100 /\ amount_spent (self fr') = 700.
Proof.
  cbv zeta.
  destruct (update_spending_limit_contract 100
              (demo_frame OWNER (demo_card 500 1000 700 true))) as ([_ Hs] & He & _).
  destruct (Hs eq_refl) as [fr' E].
  exists fr'. split; [exact E |].
  destruct (He _ E) as (Hl & _ & _ & _ & Ha & _).
  rewrite Hl, Ha. split; reflexivity.
Defined.

Lemma deposit_contract_witness :
  let fr := demo_frame OWNER (demo_card 500 1000 0 true) in
  exists fr', deposit (demo_coin 250) fr = (Ok tt, fr') /\ balance (self fr') = 750.
Proof.
  cbv zeta.
  destruct (deposit_contract (demo_coin 250)
              (demo_frame OWNER (demo_card 500 1000 0 true))) as ([_ Hs] & He & _).
  destruct Hs as [fr' E].
  { repeat split. unfold MAX_U64. cbn. lia. }
  exists fr'. split; [exact E |].
  destruct (He _ E) as (Hc & _). rewrite Hc. reflexivity.
Defined.

Lemma spend_to_owner_pays_owner_witness :
  let fr := demo_frame OWNER (demo_card 500 1000 0 true) in
  spend demo_derive_id 200 OWNER fr = spend_to_owner demo_derive_id 200 fr.
Proof.
  cbv zeta.
  destruct (spend_to_owner_pays_owner demo_derive_id 200
              (demo_frame OWNER (demo_card 500 1000 0 true))
              (snd (spend_to_owner demo_derive_id 200
                      (demo_frame OWNER (demo_card 500 1000 0 true))))
              eq_refl) as (E & _).
  exact E.
Defined.

Lemma lowered_limit_blocks_spend_witness :
  let fr := demo_frame OWNER (demo_card 500 100 700 true) in
  spend demo_derive_id 0 STRANGER fr = (Fail (AbortCode mod_card EExceedsSpendingLimit), fr).
Proof.
  cbv zeta.
  assert (Hlow : spending_limit (self (demo_frame OWNER (demo_card 500 100 700 true)))
                 < amount_spent (self (demo_frame OWNER (demo_card 500 100 700 true))))
    by (cbn; lia).
  destruct (lowered_limit_blocks_spend demo_derive_id 0 STRANGER _ Hlow (Z.le_refl 0))
    as (_ & H).
  destruct (H eq_refl eq_refl) as (E & _); [cbn; lia |].
  exact E.
Defined.

Lemma run_keeps_owner_witness :
  owner (self demo_end) = OWNER /\
  Forall (fun t => tx_sender t = OWNER) demo_txs.
Proof.
  destruct (run_keeps_owner demo_derive_id demo_txs demo_start demo_end eq_refl)
    as (Ho & _ & Hall).
  split; [exact Ho | exact Hall].
Defined.

Lemma run_amount_spent_witness :
  amount_spent (self demo_end) = 0 + total_spent demo_txs.
Proof.
  apply (run_amount_spent demo_derive_id demo_txs demo_start demo_end eq_refl).
Defined.

Lemma spends_stay_within_creation_limit_witness :
  total_spent fixed_limit_txs = 1000 /\ total_moved_out fixed_limit_txs = 5000.
Proof.
  assert (Hno : Forall (fun t => is_limit_update (tx_call t) = false) fixed_limit_txs)
    by (repeat constructor).
  destruct (spends_stay_within_creation_limit demo_derive_id 1000 (demo_ctx OWNER)
              demo_start fixed_limit_txs fixed_limit_end
              ltac:(lia) eq_refl eq_refl Hno) as (E & _).
  split; [rewrite E; reflexivity | reflexivity].
Defined.

Lemma run_keeps_u64_witness : wf_card (self demo_end).
Proof.
  apply (run_keeps_u64 demo_derive_id 1000 (demo_ctx OWNER) demo_start demo_txs demo_end).
  - unfold is_u64, MAX_U64. lia.
  - reflexivity.
  - unfold demo_txs, tx_by_owner, demo_coin.
    repeat constructor; cbn; unfold is_u64, MAX_U64, coin_value, balance_value; cbn; lia.
  - reflexivity.
Defined.

Lemma funds_are_conserved_witness :
  balance (self demo_end) + sum_amounts (coins_sent (sent (rt demo_end))) = 500.
Proof.
  rewrite (funds_are_conserved demo_derive_id 1000 (demo_ctx OWNER)
             demo_start demo_txs demo_end eq_refl eq_refl).
  reflexivity.
Defined.

Lemma run_events_witness :
  exists new, events (rt demo_end) = events (rt demo_start) ++ new /\ List.length new = 3%nat.
Proof.
  destruct (run_events demo_derive_id demo_txs demo_start demo_end eq_refl)
    as (new & He & Hl & _).
  exists new. split; [exact He | exact Hl].
Defined.

Lemma toggle_round_trip_witness :
  let fr := demo_frame OWNER (demo_card 500 1000 0 true) in
  (deactivate_card ;; reactivate_card ;; spend demo_derive_id 100 STRANGER) fr
  = spend demo_derive_id 100 STRANGER fr.
Proof.
  cbv zeta.
  destruct (toggle_round_trip demo_derive_id 100 STRANGER
              (demo_frame OWNER (demo_card 500 1000 0 true)) eq_refl)
    as (_ & _ & _ & H).
  destruct (H eq_refl) as (_ & E). exact E.
Defined.

Lemma deposit_withdraw_round_trip_witness :
  let fr := demo_frame OWNER (demo_card 500 1000 0 true) in
  exists fr', (deposit (demo_coin 250) ;; withdraw demo_derive_id 250) fr = (Ok tt, fr') /\
              self fr' = self fr.
Proof.
  cbv zeta.
  destruct (deposit_withdraw_round_trip demo_derive_id (demo_coin 250)
              (demo_frame OWNER (demo_card 500 1000 0 true)))
    as (fr' & coin & E & Hs & _).
  - reflexivity.
  - reflexivity.
  - cbn. lia.
  - unfold MAX_U64. cbn. lia.
  - exists fr'. split; [exact E | exact Hs].
Defined.

(** * The dapp's view of the module's events *)

Section EventTypes.

Local Open Scope string_scope.















End EventTypes.

(** * The history page *)

Section HistoryPage.

Local Open Scope string_scope.






End HistoryPage.

(** * Shortened addresses *)

Section Addresses.

Local Open Scope string_scope.






End Addresses.



